(** * HTML message deserialization (hydrogen-web)

    A shallow embedding of the [Deserializer] class and of [parseHTMLBody],
    with the properties of the deserializer stated and proved over it.

    Conventions of the embedding.
    - A JavaScript string is a [string]: one [ascii] per code unit, so the
      model covers the strings whose code units are below 256.
    - [null] and [undefined] are both [None]; the code never tells them apart
      (it only tests truthiness, or hands the value to [parseInt]).
    - A JavaScript number produced by [parseInt] is [NaN] or an integer, kept
      as an exact [Z]; the rounding of integers beyond 2^53 to the nearest
      double is outside the model (it never changes truthiness).
    - [into.push(x)] on the accumulator array is [into ++ [x]], threaded
      through the functions that receive [into].
    - A thrown [TypeError] is the [Throw] result of the [Result] monad. *)

From Stdlib Require Import String Ascii List ZArith Bool Lia.
Import ListNotations.

Set Warnings "-register-all".

Local Open Scope string_scope.
Local Open Scope Z_scope.
Local Open Scope list_scope.

(** ** JavaScript strings *)

Module JSString.

(** [s.startsWith(p)] *)
Definition startsWith (s p : string) : bool := String.prefix p s.

(** [s.substring(n)]: the code units from index [n] on. *)
Fixpoint substring (n : nat) (s : string) : string :=
  match n, s with
  | O, _ => s
  | S n', String _ s' => substring n' s'
  | S _, EmptyString => EmptyString
  end.

(** [s.split(sep)] for a separator of one code unit: the pieces between
    the occurrences of [sep], never an empty array. *)
Fixpoint split (sep : ascii) (s : string) : list string :=
  match s with
  | EmptyString => [EmptyString]
  | String c s' =>
      if Ascii.eqb c sep then EmptyString :: split sep s'
      else match split sep s' with
           | piece :: pieces => String c piece :: pieces
           | [] => [String c EmptyString]
           end
  end.

(** [s[i]]: the string of the one code unit at index [i], or [undefined]. *)
Definition at_index (s : string) (i : nat) : option string :=
  match String.get i s with
  | Some c => Some (String c EmptyString)
  | None => None
  end.

Definition lowerChar (c : ascii) : ascii :=
  let n := nat_of_ascii c in
  if ((65 <=? n) && (n <=? 90))%nat then ascii_of_nat (n + 32)
  else if ((192 <=? n) && (n <=? 222) && negb (n =? 215))%nat
       then ascii_of_nat (n + 32)
  else c.

(** [s.toLowerCase()] on code units below 256. *)
Fixpoint toLowerCase (s : string) : string :=
  match s with
  | EmptyString => EmptyString
  | String c s' => String (lowerChar c) (toLowerCase s')
  end.

(** Truthiness of a string: every string but the empty one. *)
Definition truthy (s : string) : bool :=
  match s with EmptyString => false | String _ _ => true end.

(** [v || ""] for an optional string [v]. *)
Definition orEmpty (v : option string) : string :=
  match v with
  | Some s => s
  | None => EmptyString
  end.

(** [ToString(v)] for a string, [null] or [undefined]. *)
Definition ToString (v : option string) : string :=
  match v with
  | Some s => s
  | None => "undefined"
  end.

End JSString.

(** ** JavaScript numbers and [parseInt] *)

Inductive number : Type :=
| NaN
| Num (z : Z).

Module JSNumber.

(** The code units [parseInt] skips at the start: WhiteSpace and
    LineTerminator (TAB, LF, VT, FF, CR, SP, NBSP below 256). *)
Definition isStrWhiteSpaceChar (c : ascii) : bool :=
  let n := nat_of_ascii c in
  ((n =? 9) || (n =? 10) || (n =? 11) || (n =? 12) || (n =? 13)
   || (n =? 32) || (n =? 160))%nat.

Fixpoint trimStart (s : string) : string :=
  match s with
  | EmptyString => EmptyString
  | String c s' => if isStrWhiteSpaceChar c then trimStart s' else s
  end.

(** The value of a code unit as a digit: 0-9, then a-z or A-Z for 10-35. *)
Definition digitValue (c : ascii) : option Z :=
  let n := Z.of_nat (nat_of_ascii c) in
  if (48 <=? n) && (n <=? 57) then Some (n - 48)
  else if (97 <=? n) && (n <=? 122) then Some (n - 87)
  else if (65 <=? n) && (n <=? 90) then Some (n - 55)
  else None.

(** The integer written by the longest prefix of radix-[R] digits of [s];
    [acc] is the value read so far, [None] before the first digit. *)
Fixpoint parseDigits (R : Z) (s : string) (acc : option Z) : option Z :=
  match s with
  | EmptyString => acc
  | String c s' =>
      match digitValue c with
      | Some d =>
          if d <? R
          then parseDigits R s' (Some (match acc with
                                       | Some a => a * R + d
                                       | None => d
                                       end))
          else acc
      | None => acc
      end
  end.

(** [parseInt(inputString)] with no radix argument (ECMAScript 19.2.5):
    trim, sign, optional [0x]/[0X] prefix, digits. *)
Definition parseIntString (inputString : string) : number :=
  let S0 := trimStart inputString in
  let '(sign, S1) :=
    match S0 with
    | String c rest =>
        if Ascii.eqb c "-" then (-1, rest)
        else if Ascii.eqb c "+" then (1, rest)
        else (1, S0)
    | EmptyString => (1, S0)
    end in
  let '(R, S2) :=
    match S1 with
    | String c0 (String c1 rest) =>
        if Ascii.eqb c0 "0" && (Ascii.eqb c1 "x" || Ascii.eqb c1 "X")
        then (16, rest) else (10, S1)
    | _ => (10, S1)
    end in
  match parseDigits R S2 None with
  | Some mathInt => Num (sign * mathInt)
  | None => NaN
  end.

(** [parseInt(v)] for a string, [null] or [undefined]. *)
Definition parseInt (v : option string) : number :=
  parseIntString (JSString.ToString v).

(** The truthy numbers: every number but [NaN] and zero. *)
Definition truthy (n : number) : option Z :=
  match n with
  | Num z => if z =? 0 then None else Some z
  | NaN => None
  end.

(** [n || d] for a number [d]. *)
Definition orNumber (n : number) (d : Z) : Z :=
  match truthy n with
  | Some z => z
  | None => d
  end.

(** [n || null] *)
Definition orNull (n : number) : option Z := truthy n.

End JSNumber.

(** ** The parsed HTML tree

    What the [HTMLParseResult] adapter exposes of a node: whether it is a
    text node, an element node or neither (a comment, say), the attributes
    of an element in document order, and the child nodes of any node. *)

Inductive NodeKind : Type :=
| TextKind (text : string)
| ElementKind (tagName : string) (attributes : list (string * string))
| OtherKind.

Inductive Node : Type :=
  mkNode { nodeKind : NodeKind; childNodes : list Node }.

Definition TextNode (text : string) : Node := mkNode (TextKind text) [].

Definition ElementNode (tagName : string) (attributes : list (string * string))
    (children : list Node) : Node :=
  mkNode (ElementKind tagName attributes) children.

Definition CommentNode : Node := mkNode OtherKind [].

Module HTMLParseResult.

Definition getChildNodes (node : Node) : list Node := childNodes node.

Definition isTextNode (node : Node) : bool :=
  match nodeKind node with
  | TextKind _ => true
  | _ => false
  end.

Definition isElementNode (node : Node) : bool :=
  match nodeKind node with
  | ElementKind _ _ => true
  | _ => false
  end.

Definition getNodeText (node : Node) : string :=
  match nodeKind node with
  | TextKind text => text
  | _ => EmptyString
  end.

(** [node.tagName], [undefined] on a node that is no element. *)
Definition getNodeElementName (node : Node) : option string :=
  match nodeKind node with
  | ElementKind tagName _ => Some tagName
  | _ => None
  end.

Fixpoint lookup (attr : string) (attributes : list (string * string))
    : option string :=
  match attributes with
  | [] => None
  | (name, value) :: rest =>
      if String.eqb name attr then Some value else lookup attr rest
  end.

(** [node.getAttribute(attr)]: the value of the first attribute of that
    name, [None] when the element has none. *)
Definition getAttributeValue (node : Node) (attr : string) : option string :=
  match nodeKind node with
  | ElementKind _ attributes => lookup attr attributes
  | _ => None
  end.

End HTMLParseResult.

Import HTMLParseResult.

(** Modelled from the spec: the [textContent] property of a node, which the
    platform's tree provides and [parseCodeBlock] reads; the spec calls it
    the element's full literal text content, nested markup flattened. It is
    the text of a text node, and for any other node the concatenation of the
    text content of its children, a node that is neither text nor element
    contributing nothing. *)
Fixpoint textContent (node : Node) : string :=
  match node with
  | mkNode (TextKind text) _ => text
  | mkNode (ElementKind _ _) children =>
      String.concat EmptyString (map textContent children)
  | mkNode OtherKind _ => EmptyString
  end.

(** ** The message body parts ([MessageBody.js]) *)

Inductive Part : Type :=
| TextPart (text : string)
| mkFormatPart (format : string) (children : list Part)
| NewLinePart
| RulePart
| LinkPart (url : option string) (inlines : list Part)
| PillPart (id : string) (href : string) (children : list Part)
| ImagePart (src : string) (width height : option Z)
            (description name : option string)
| HeaderBlock (level : number) (inlines : list Part)
| ListBlock (startOffset : option Z) (items : list (list Part))
| CodeBlock (language : string) (text : string).

(** Modelled from the spec: the constructor [new FormatPart(format,
    children)] of [MessageBody.js], which is not among the sources. The spec
    gives a Format part the lower-case tag ("p", "em", "span") although the
    tree walker's element names are upper-case, and the tests of the
    deserializer compare the parts built from "EM" or "P" with
    [new FormatPart("em", ...)] and [new FormatPart("p", ...)]: the
    constructor stores the tag in lower case. *)
Definition FormatPart (format : string) (children : list Part) : Part :=
  mkFormatPart (JSString.toLowerCase format) children.

Record MessageBody : Type :=
  mkMessageBody { sourceString : string; parts : list Part }.

(** ** Results of code that can throw *)

Inductive Exception : Type :=
| TypeError.

Inductive Result (A : Type) : Type :=
| Ok (value : A)
| Throw (e : Exception).

Arguments Ok {A} value.
Arguments Throw {A} e.

Definition bind {A B : Type} (m : Result A) (k : A -> Result B) : Result B :=
  match m with
  | Ok a => k a
  | Throw e => Throw e
  end.

Notation "x <- m ;; k" := (bind m (fun x => k))
  (at level 61, m at next level, right associativity).

Section ForOf.
Context {A B : Type}.
Variable body : A -> B -> Result A.

(** A [for (const x of xs)] loop whose body updates the state [a] and may
    throw: the loop stops at the first exception. *)
Fixpoint forOf (xs : list B) (a : A) : Result A :=
  match xs with
  | [] => Ok a
  | x :: xs' => a' <- body a x ;; forOf xs' a'
  end.
End ForOf.

(** ** The collaborators of the deserializer *)

(** What [parsePillLink] returns when it returns an object. *)
Record PillData : Type := mkPillData { userId : option string }.

(** The media repository: [mxcUrl(src)] is a URL, or [null]. *)
Record MediaRepository : Type :=
  mkMediaRepository { mxcUrl : string -> option string }.

(** [basicInline] and [basicBlock] *)
Definition basicInline : list string := ["EM"; "STRONG"; "CODE"; "DEL"; "SPAN"].
Definition basicBlock : list string := ["DIV"; "BLOCKQUOTE"].

(** [array.includes(tag)] *)
Definition includes (array : list string) (tag : string) : bool :=
  existsb (String.eqb tag) array.

(** [result.getNodeElementName(node) === name] *)
Definition elementNameIs (node : Node) (name : string) : bool :=
  match getNodeElementName node with
  | Some tag => String.eqb tag name
  | None => false
  end.

(** The platform: [parseHTML(html).rootNodes]. *)
Record Platform : Type :=
  mkPlatform { parseHTML : string -> list Node }.

(** ** The deserializer

    [linkify(text, callback)] is given by the calls [callback(text, isLink)]
    it makes, in order. [parsePillLink(href)] is an object with an optional
    [userId], or [null]. [mediaRepository] is what [parseHTMLBody] receives:
    a media repository, or [null] as in the tests of the deserializer. *)

Section Deserializer.

Variable linkify : string -> list (string * bool).
Variable parsePillLink : string -> option PillData.
Variable mediaRepository : option MediaRepository.

(** [href && parsePillLink(href)]: [parsePillLink] is called on a truthy
    [href] only; the value is falsy otherwise. *)
Definition pillDataOf (href : option string) : option PillData :=
  match href with
  | Some h => if JSString.truthy h then parsePillLink h else None
  | None => None
  end.

(** [pillData && pillData.userId], when it is truthy. *)
Definition truthyUserId (pillData : option PillData) : option string :=
  match pillData with
  | Some data =>
      match userId data with
      | Some id => if JSString.truthy id then Some id else None
      | None => None
      end
  | None => None
  end.

Definition parseLink (node : Node) (children : list Part) : Part :=
  let href := getAttributeValue node "href" in
  let pillData := pillDataOf href in
  match truthyUserId pillData, href with
  | Some id, Some h => PillPart id h children
  | _, _ => LinkPart href children
  end.

(** The loop of [parseCodeBlock] over [cl.split(" ")], left at the first
    class name that starts with "language-" but not with "language-_". *)
Fixpoint languageOf (clnames : list string) : string :=
  match clnames with
  | [] => EmptyString
  | clname :: rest =>
      if JSString.startsWith clname "language-"
         && negb (JSString.startsWith clname "language-_")
      then JSString.substring 9 clname
      else languageOf rest
  end.

Definition parseCodeBlock (node : Node) : option Part :=
  (* the first loop breaks after one turn: [codeNode] is the first child *)
  match hd_error (getChildNodes node) with
  | Some codeNode =>
      if negb (elementNameIs codeNode "CODE") then None
      else
        let cl := JSString.orEmpty (getAttributeValue codeNode "class") in
        let language := languageOf (JSString.split " " cl) in
        Some (CodeBlock language (textContent codeNode))
  | None => None
  end.

(** [this.mediaRepository.mxcUrl(src)] throws a [TypeError] when the media
    repository is [null]. *)
Definition parseImage (node : Node) : Result (option Part) :=
  let src := JSString.orEmpty (getAttributeValue node "src") in
  match mediaRepository with
  | None => Throw TypeError
  | Some repository =>
      match mxcUrl repository src with
      | Some url =>
          if negb (JSString.truthy url) then Ok None
          else
            let width :=
              JSNumber.orNull (JSNumber.parseInt (getAttributeValue node "width")) in
            let height :=
              JSNumber.orNull (JSNumber.parseInt (getAttributeValue node "height")) in
            let alt := getAttributeValue node "alt" in
            let title := getAttributeValue node "title" in
            Ok (Some (ImagePart url width height alt title))
      | None => Ok None
      end
  end.

(** The calls of [linkifyCallback], each pushing one part. *)
Definition linkifyCallback (into : list Part) (token : string * bool)
    : list Part :=
  let '(text, isLink) := token in
  if isLink then into ++ [LinkPart (Some text) [TextPart text]]
  else into ++ [TextPart text].

(** [_parseTextParts(node, into)]: the boolean returned, and [into] after
    the call. *)
Definition _parseTextParts (node : Node) (into : list Part)
    : bool * list Part :=
  if negb (isTextNode node) then (false, into)
  else (true, fold_left linkifyCallback (linkify (getNodeText node)) into).

(** *** Inline context

    The functions of the inline context call one another through
    [_parseInlineNodes], always on the child nodes of the node at hand. They
    are written first over [turn], standing for one turn of the loop of
    [_parseInlineNodes] on a node further down (names ending in [F]), and
    closed by the recursion on the node below. *)

Section InlineContext.

Variable turn : Node -> list Part -> list Part.

Definition _parseInlineNodesF (nodes : list Node) (into : list Part)
    : list Part :=
  fold_left (fun into htmlNode => turn htmlNode into) nodes into.

Definition parseInlineNodesF (nodes : list Node) : list Part :=
  _parseInlineNodesF nodes [].

Definition parseInlineElementF (node : Node) : option Part :=
  let children := getChildNodes node in
  match getNodeElementName node with
  | None => None
  | Some tag =>
      if String.eqb tag "A" then
        let inlines := parseInlineNodesF children in
        Some (parseLink node inlines)
      else if String.eqb tag "BR" then Some NewLinePart
      else if negb (includes basicInline tag) then None
      else
        let inlines := parseInlineNodesF children in
        Some (FormatPart tag inlines)
  end.

Definition parseInlineNodeF (node : Node) : option Part :=
  if isElementNode node then parseInlineElementF node else None.

(** One turn of the loop of [_parseInlineNodes]. *)
Definition _parseInlineNodes_turnF (htmlNode : Node) (into : list Part)
    : list Part :=
  let '(wasText, into) := _parseTextParts htmlNode into in
  if wasText then into
  else
    match parseInlineNodeF htmlNode with
    | Some node => into ++ [node]
    | None => _parseInlineNodesF (getChildNodes htmlNode) into
    end.

End InlineContext.

Fixpoint _parseInlineNodes_turn (htmlNode : Node) (into : list Part)
    {struct htmlNode} : list Part :=
  _parseInlineNodes_turnF _parseInlineNodes_turn htmlNode into.

Definition _parseInlineNodes : list Node -> list Part -> list Part :=
  _parseInlineNodesF _parseInlineNodes_turn.

Definition parseInlineNodes : list Node -> list Part :=
  parseInlineNodesF _parseInlineNodes_turn.

Definition parseInlineElement : Node -> option Part :=
  parseInlineElementF _parseInlineNodes_turn.

Definition parseInlineNode : Node -> option Part :=
  parseInlineNodeF _parseInlineNodes_turn.

(** *** Mixed (any) context *)

Section AnyContext.

Variable turn : Node -> list Part -> Result (list Part).

Definition _parseAnyNodesF (nodes : list Node) (into : list Part)
    : Result (list Part) :=
  forOf (fun into htmlNode => turn htmlNode into) nodes into.

Definition parseAnyNodesF (nodes : list Node) : Result (list Part) :=
  _parseAnyNodesF nodes [].

Definition parseListF (node : Node) : Result Part :=
  let start :=
    if elementNameIs node "OL"
    then Some (JSNumber.orNumber
                 (JSNumber.parseInt (getAttributeValue node "start")) 1)
    else None in
  nodes <- forOf (fun nodes child =>
                    if negb (elementNameIs child "LI") then Ok nodes
                    else
                      item <- parseAnyNodesF (getChildNodes child) ;;
                      Ok (nodes ++ [item]))
                 (getChildNodes node) [] ;;
  Ok (ListBlock start nodes).

Definition isHeaderTag (tag : string) : bool :=
  String.eqb tag "H1" || String.eqb tag "H2" || String.eqb tag "H3"
  || String.eqb tag "H4" || String.eqb tag "H5" || String.eqb tag "H6".

Definition parseBlockElementF (node : Node) : Result (option Part) :=
  let children := getChildNodes node in
  match getNodeElementName node with
  | None => Ok None
  | Some tag =>
      if isHeaderTag tag then
        let inlines := parseInlineNodes children in
        Ok (Some (HeaderBlock (JSNumber.parseInt (JSString.at_index tag 1))
                              inlines))
      else if String.eqb tag "UL" || String.eqb tag "OL" then
        list <- parseListF node ;; Ok (Some list)
      else if String.eqb tag "PRE" then Ok (parseCodeBlock node)
      else if String.eqb tag "HR" then Ok (Some RulePart)
      else if String.eqb tag "IMG" then parseImage node
      else if String.eqb tag "P" then
        let inlines := parseInlineNodes children in
        Ok (Some (FormatPart tag inlines))
      else if negb (includes basicBlock tag) then Ok None
      else
        blocks <- parseAnyNodesF children ;;
        Ok (Some (FormatPart tag blocks))
  end.

Definition parseBlockNodeF (node : Node) : Result (option Part) :=
  if isElementNode node then parseBlockElementF node else Ok None.

(** One turn of the loop of [_parseAnyNodes];
    [parseInlineNode(htmlNode) || parseBlockNode(htmlNode)] calls
    [parseBlockNode] only when [parseInlineNode] returned [null]. *)
Definition _parseAnyNodes_turnF (htmlNode : Node) (into : list Part)
    : Result (list Part) :=
  let '(wasText, into) := _parseTextParts htmlNode into in
  if wasText then Ok into
  else
    node <- match parseInlineNode htmlNode with
            | Some inline => Ok (Some inline)
            | None => parseBlockNodeF htmlNode
            end ;;
    match node with
    | Some node => Ok (into ++ [node])
    | None => _parseAnyNodesF (getChildNodes htmlNode) into
    end.

End AnyContext.

Fixpoint _parseAnyNodes_turn (htmlNode : Node) (into : list Part)
    {struct htmlNode} : Result (list Part) :=
  _parseAnyNodes_turnF _parseAnyNodes_turn htmlNode into.

Definition _parseAnyNodes : list Node -> list Part -> Result (list Part) :=
  _parseAnyNodesF _parseAnyNodes_turn.

Definition parseAnyNodes : list Node -> Result (list Part) :=
  parseAnyNodesF _parseAnyNodes_turn.

Definition parseList : Node -> Result Part :=
  parseListF _parseAnyNodes_turn.

Definition parseBlockElement : Node -> Result (option Part) :=
  parseBlockElementF _parseAnyNodes_turn.

Definition parseBlockNode : Node -> Result (option Part) :=
  parseBlockNodeF _parseAnyNodes_turn.

Definition parseHTMLBody (platform : Platform) (html : string)
    : Result MessageBody :=
  let rootNodes := parseHTML platform html in
  parts <- parseAnyNodes rootNodes ;;
  Ok (mkMessageBody html parts).

End Deserializer.

(** ** Sample collaborators, used to run the deserializer on inputs *)

Module Sample.

(** A linkifier on text that holds no link: one call, with the whole text. *)
Definition linkify (text : string) : list (string * bool) := [(text, false)].

(** A recognizer of mention links: a user id after "https://matrix.to/#/". *)
Definition parsePillLink (link : string) : option PillData :=
  if JSString.startsWith link "https://matrix.to/#/" then
    let contents := JSString.substring 20 link in
    if JSString.startsWith contents "@"
    then Some (mkPillData (Some contents)) else None
  else None.

(** A media repository: a download URL for an "mxc://" source. *)
Definition repository : MediaRepository :=
  mkMediaRepository (fun url =>
    if JSString.startsWith url "mxc://"
    then Some ("https://hs/_matrix/media/r0/download/" ++ JSString.substring 6 url)%string
    else None).

(** The deserializer as its tests run it: no media repository. *)
Definition parse (nodes : list Node) : Result (list Part) :=
  parseAnyNodes linkify parsePillLink None nodes.

Definition parseWithMedia (nodes : list Node) : Result (list Part) :=
  parseAnyNodes linkify parsePillLink (Some repository) nodes.

End Sample.

(** ** Vocabulary of the properties *)

(** The two traversal contexts, and the classification of a node sequence
    under each: [parseInlineNodes], which cannot throw, and [parseAnyNodes]. *)
Inductive TraversalContext : Type :=
| Inline
| Mixed.

Definition classify (linkify : string -> list (string * bool))
    (parsePillLink : string -> option PillData)
    (mediaRepository : option MediaRepository)
    (context : TraversalContext) (nodes : list Node) : Result (list Part) :=
  match context with
  | Inline => Ok (parseInlineNodes linkify parsePillLink nodes)
  | Mixed => parseAnyNodes linkify parsePillLink mediaRepository nodes
  end.

(** The tags that [parseInlineElement] has a case for. *)
Definition inlineRule (tag : string) : bool :=
  String.eqb tag "A" || String.eqb tag "BR" || includes basicInline tag.

(** The tags that [parseBlockElement] has a case for. *)
Definition blockRule (tag : string) : bool :=
  isHeaderTag tag || String.eqb tag "UL" || String.eqb tag "OL"
  || String.eqb tag "PRE" || String.eqb tag "HR" || String.eqb tag "IMG"
  || String.eqb tag "P" || includes basicBlock tag.

(** The tags with a rule in a context: block rules apply in mixed context
    only. *)
Definition ruleApplies (context : TraversalContext) (tag : string) : bool :=
  match context with
  | Inline => inlineRule tag
  | Mixed => inlineRule tag || blockRule tag
  end.

(** The recognizer, applied to [href], recognizes the user [id]: it returns
    an object whose [userId] is that non-empty string. *)
Definition recognizes (parsePillLink : string -> option PillData)
    (href id : string) : Prop :=
  exists pillData,
    parsePillLink href = Some pillData
    /\ userId pillData = Some id /\ id <> EmptyString.

(** The list items of a list element: its child nodes that are [LI]
    elements, in document order. *)
Definition listItems (node : Node) : list Node :=
  filter (fun child => elementNameIs child "LI") (getChildNodes node).

(** The results of a sequence of computations, up to the first that throws. *)
Fixpoint sequence {A : Type} (results : list (Result A)) : Result (list A) :=
  match results with
  | [] => Ok []
  | result :: rest =>
      value <- result ;; values <- sequence rest ;; Ok (value :: values)
  end.

(** The language label as the specification words it: among the tokens of
    the class attribute separated by spaces, the first that begins with
    "language-" and has no underscore right after that prefix; the label is
    what follows the prefix, or the empty string when there is no such
    token. *)
Definition isLanguageToken (token : string) : bool :=
  JSString.startsWith token "language-"
  && match String.get 9 token with
     | Some c => negb (Ascii.eqb c "_")
     | None => true
     end.

Definition languageLabel (class : option string) : string :=
  match find isLanguageToken (JSString.split " " (JSString.orEmpty class)) with
  | Some token => JSString.substring 9 token
  | None => EmptyString
  end.

(** The attributes the deserializer reads. *)
Definition readAttributes : list string :=
  ["href"; "src"; "width"; "height"; "alt"; "title"; "class"; "start"].

(** Two attribute lists with the same names in the same order, whose values
    may differ only for names outside [readAttributes]. *)
Fixpoint sameAttributesButUnread (attributes attributes' : list (string * string))
    : bool :=
  match attributes, attributes' with
  | [], [] => true
  | (name, value) :: rest, (name', value') :: rest' =>
      String.eqb name name'
      && (if includes readAttributes name then String.eqb value value' else true)
      && sameAttributesButUnread rest rest'
  | _, _ => false
  end.

Definition sameKindButUnread (kind kind' : NodeKind) : bool :=
  match kind, kind' with
  | TextKind text, TextKind text' => String.eqb text text'
  | ElementKind tag attributes, ElementKind tag' attributes' =>
      String.eqb tag tag' && sameAttributesButUnread attributes attributes'
  | OtherKind, OtherKind => true
  | _, _ => false
  end.

(** Two trees that are identical except in the values of attributes outside
    [readAttributes]. *)
Fixpoint sameButUnread (node node' : Node) {struct node} : bool :=
  match node, node' with
  | mkNode kind children, mkNode kind' children' =>
      sameKindButUnread kind kind'
      && (fix forest (nodes nodes' : list Node) {struct nodes} : bool :=
            match nodes, nodes' with
            | [], [] => true
            | child :: rest, child' :: rest' =>
                sameButUnread child child' && forest rest rest'
            | _, _ => false
            end) children children'
  end.

Fixpoint forestSameButUnread (nodes nodes' : list Node) : bool :=
  match nodes, nodes' with
  | [], [] => true
  | node :: rest, node' :: rest' =>
      sameButUnread node node' && forestSameButUnread rest rest'
  | _, _ => false
  end.

(** What the adapter lets the deserializer observe of a node itself, with
    the attributes restricted to [readAttributes]. *)
Definition sameObservations (node node' : Node) : Prop :=
  isTextNode node = isTextNode node'
  /\ isElementNode node = isElementNode node'
  /\ getNodeText node = getNodeText node'
  /\ getNodeElementName node = getNodeElementName node'
  /\ forall attr,
       In attr readAttributes ->
       getAttributeValue node attr = getAttributeValue node' attr.

(** ** Vocabulary of the further properties *)

(** The part that one call of [linkifyCallback] pushes. *)
Definition tokenPart (token : string * bool) : Part :=
  let '(text, isLink) := token in
  if isLink then LinkPart (Some text) [TextPart text] else TextPart text.

(** [holds] is true of a part and of every part below it: the children of
    a Format, Link, Pill or Header part, the parts of the items of a List. *)
Fixpoint everyPart (holds : Part -> bool) (part : Part) {struct part} : bool :=
  holds part
  && match part with
     | mkFormatPart _ children => forallb (everyPart holds) children
     | LinkPart _ inlines => forallb (everyPart holds) inlines
     | PillPart _ _ children => forallb (everyPart holds) children
     | HeaderBlock _ inlines => forallb (everyPart holds) inlines
     | ListBlock _ items => forallb (forallb (everyPart holds)) items
     | _ => true
     end.

(** The parts of inline level: text, line break, link, pill, and the
    formats of [basicInline] (in the lower case a Format part stores). *)
Definition inlineLevel (part : Part) : bool :=
  match part with
  | TextPart _ | NewLinePart | LinkPart _ _ | PillPart _ _ _ => true
  | mkFormatPart format _ =>
      includes (map JSString.toLowerCase basicInline) format
  | _ => false
  end.

(** The tag of a Format part is one of the eight the deserializer wraps. *)
Definition allowedFormat (part : Part) : bool :=
  match part with
  | mkFormatPart format _ =>
      includes (map JSString.toLowerCase (basicInline ++ basicBlock ++ ["P"]))
               format
  | _ => true
  end.

(** The numbers of a part are meaningful: a header level from 1 to 6, no
    list start, image width or image height equal to zero. *)
Definition soundNumbers (part : Part) : bool :=
  match part with
  | HeaderBlock (Num level) _ => (1 <=? level) && (level <=? 6)
  | HeaderBlock NaN _ => false
  | ListBlock (Some start) _ => negb (start =? 0)
  | ImagePart _ width height _ _ =>
      match width with Some w => negb (w =? 0) | None => true end
      && match height with Some h => negb (h =? 0) | None => true end
  | _ => true
  end.

(** The identifying strings of a part are not empty: the user id and the
    href of a Pill, the URL of an Image. *)
Definition soundStrings (part : Part) : bool :=
  match part with
  | PillPart id href _ => JSString.truthy id && JSString.truthy href
  | ImagePart src _ _ _ _ => JSString.truthy src
  | _ => true
  end.

(** [holds] is true of a node and of every node below it. *)
Fixpoint everyNode (holds : Node -> bool) (node : Node) {struct node} : bool :=
  match node with
  | mkNode kind children =>
      holds (mkNode kind children) && forallb (everyNode holds) children
  end.

(** A node that is no element with a case in [parseBlockElement]. *)
Definition noBlockRule (node : Node) : bool :=
  match getNodeElementName node with
  | Some tag => negb (blockRule tag)
  | None => true
  end.

(** A node that is no [BR] element with child nodes. *)
Definition emptyLineBreak (node : Node) : bool :=
  if elementNameIs node "BR"
  then match getChildNodes node with [] => true | _ :: _ => false end
  else true.

Definition joinText (texts : list string) : string :=
  fold_right String.append EmptyString texts.

(** The text below a node: the text of the text nodes, in document order. *)
Fixpoint flatText (node : Node) : string :=
  match node with
  | mkNode (TextKind text) _ => text
  | mkNode _ children => joinText (map flatText children)
  end.

(** The text that a part holds: the text of the Text parts and code blocks
    at or below it, in order. *)
Fixpoint partText (part : Part) : string :=
  match part with
  | TextPart text => text
  | mkFormatPart _ children => joinText (map partText children)
  | LinkPart _ inlines => joinText (map partText inlines)
  | PillPart _ _ children => joinText (map partText children)
  | HeaderBlock _ inlines => joinText (map partText inlines)
  | ListBlock _ items =>
      joinText (map (fun item => joinText (map partText item)) items)
  | CodeBlock _ text => text
  | _ => EmptyString
  end.

(** The code unit [c] occurs in [s]. *)
Fixpoint containsChar (c : ascii) (s : string) : bool :=
  match s with
  | EmptyString => false
  | String c' s' => Ascii.eqb c' c || containsChar c s'
  end.

(** * Properties *)

(** ** The tests of the deserializer, on the trees their inputs parse to *)

Example test_text_only :
  Sample.parse [TextNode "This is a sentence"]
  = Ok [TextPart "This is a sentence"].
Proof. reflexivity. Qed.

Example test_inline_code_format :
  Sample.parse [TextNode "Here's "; ElementNode "EM" [] [TextNode "some"];
                TextNode " "; ElementNode "CODE" [] [TextNode "code"];
                TextNode "!"]
  = Ok [TextPart "Here's "; mkFormatPart "em" [TextPart "some"];
        TextPart " "; mkFormatPart "code" [TextPart "code"]; TextPart "!"].
Proof. reflexivity. Qed.

Example test_ordered_list :
  Sample.parse [ElementNode "OL" [] [ElementNode "LI" [] [TextNode "Lorem"];
                                     ElementNode "LI" [] [TextNode "Ipsum"]]]
  = Ok [ListBlock (Some 1) [[TextPart "Lorem"]; [TextPart "Ipsum"]]].
Proof. reflexivity. Qed.

Example test_ordered_list_starting_at_3 :
  Sample.parse [ElementNode "OL" [("start", "3")]
                  [ElementNode "LI" [] [TextNode "Lorem"];
                   ElementNode "LI" [] [TextNode "Ipsum"]]]
  = Ok [ListBlock (Some 3) [[TextPart "Lorem"]; [TextPart "Ipsum"]]].
Proof. reflexivity. Qed.

Example test_unordered_list :
  Sample.parse [ElementNode "UL" [("start", "3")]
                  [ElementNode "LI" [] [TextNode "Lorem"];
                   ElementNode "LI" [] [TextNode "Ipsum"]]]
  = Ok [ListBlock None [[TextPart "Lorem"]; [TextPart "Ipsum"]]].
Proof. reflexivity. Qed.

Example test_auto_closed_tags :
  Sample.parse [ElementNode "P" [] [TextNode "hello"];
                ElementNode "P" [] [TextNode "world"]]
  = Ok [mkFormatPart "p" [TextPart "hello"];
        mkFormatPart "p" [TextPart "world"]].
Proof. reflexivity. Qed.

Example test_block_inside_inline :
  Sample.parse [ElementNode "SPAN" []
                  [ElementNode "P" [] [ElementNode "CODE" [] [TextNode "Hello"]]]]
  = Ok [mkFormatPart "span" [mkFormatPart "code" [TextPart "Hello"]]].
Proof. reflexivity. Qed.

Example test_unknown_tags :
  Sample.parse [ElementNode "SPAN" []
                  [ElementNode "DFN" [] [ElementNode "CODE" [] [TextNode "Hello"]];
                   ElementNode "FOOTER" [] [ElementNode "EM" [] [TextNode "World"]]]]
  = Ok [mkFormatPart "span" [mkFormatPart "code" [TextPart "Hello"];
                             mkFormatPart "em" [TextPart "World"]]].
Proof. reflexivity. Qed.

Example test_unknown_attributes :
  Sample.parse [ElementNode "EM" [("onmouseover", "alert(1)")] [TextNode "Hello"]]
  = Ok [mkFormatPart "em" [TextPart "Hello"]].
Proof. reflexivity. Qed.

(** Without a media repository, as in the tests, an image in block context
    makes [parseImage] throw. *)
Example image_without_repository :
  Sample.parse [ElementNode "IMG" [("src", "mxc://hs/abc")] []] = Throw TypeError.
Proof. reflexivity. Qed.

Example image_with_repository :
  Sample.parseWithMedia
    [ElementNode "IMG" [("src", "mxc://hs/abc"); ("width", "32"); ("alt", "cat")] []]
  = Ok [ImagePart "https://hs/_matrix/media/r0/download/hs/abc"
                  (Some 32) None (Some "cat") None].
Proof. reflexivity. Qed.

Example code_block_with_language :
  Sample.parse [ElementNode "PRE" []
                  [ElementNode "CODE" [("class", "hljs language-haskell")]
                     [TextNode "main :: "; ElementNode "B" [] [TextNode "IO"]]]]
  = Ok [CodeBlock "haskell" "main :: IO"].
Proof. reflexivity. Qed.

Example pill_and_link :
  Sample.parse [ElementNode "A" [("href", "https://matrix.to/#/@alice:hs")] [TextNode "Alice"];
                ElementNode "A" [("href", "https://example.org")] [TextNode "site"]]
  = Ok [PillPart "@alice:hs" "https://matrix.to/#/@alice:hs" [TextPart "Alice"];
        LinkPart (Some "https://example.org") [TextPart "site"]].
Proof. reflexivity. Qed.
Example parseInt_3 : JSNumber.parseInt (Some "3") = Num 3.
Proof. reflexivity. Qed.

Example parseInt_1A : JSNumber.parseInt (Some "1A") = Num 1.
Proof. reflexivity. Qed.

Example parseInt_hex : JSNumber.parseInt (Some " -0x1f;") = Num (-31).
Proof. reflexivity. Qed.

Example parseInt_undefined : JSNumber.parseInt None = NaN.
Proof. reflexivity. Qed.

Example parseInt_empty : JSNumber.parseInt (Some "") = NaN.
Proof. reflexivity. Qed.

Example split_spaces :
  JSString.split " " "a  language-js" = ["a"; ""; "language-js"].
Proof. reflexivity. Qed.

(** ** Induction on trees *)

Lemma Node_forest_ind (P : Node -> Prop) :
  (forall kind children, Forall P children -> P (mkNode kind children)) ->
  forall node, P node.
Proof.
  intros step. fix self 1. intros [kind children]. apply step.
  induction children as [|child rest IH]; constructor.
  - apply self.
  - exact IH.
Qed.

(** ** The monad and the loops *)

Lemma bind_Ok_r {A : Type} (m : Result A) : (x <- m ;; Ok x) = m.
Proof. destruct m; reflexivity. Qed.

Lemma bind_assoc {A B C : Type} (m : Result A) (f : A -> Result B)
    (g : B -> Result C) :
  (y <- (x <- m ;; f x) ;; g y) = (x <- m ;; y <- f x ;; g y).
Proof. destruct m; reflexivity. Qed.

Lemma bind_ext {A B : Type} (m : Result A) (f g : A -> Result B) :
  (forall a, f a = g a) -> bind m f = bind m g.
Proof. intros E. destruct m; simpl; auto. Qed.

Lemma forOf_app {A B : Type} (body : A -> B -> Result A) (xs ys : list B) a :
  forOf body (xs ++ ys) a = (a' <- forOf body xs a ;; forOf body ys a').
Proof.
  revert a. induction xs as [|x xs IH]; intros a; simpl.
  - reflexivity.
  - rewrite bind_assoc. apply bind_ext. intros a'. apply IH.
Qed.

(** A loop whose turns only push onto the accumulator pushes the same parts
    whatever the accumulator holds at the start. *)
Lemma forOf_pushes {B C : Type} (body : list C -> B -> Result (list C)) xs :
  Forall (fun x => forall a, body a x = (p <- body [] x ;; Ok (a ++ p))) xs ->
  forall a, forOf body xs a = (p <- forOf body xs [] ;; Ok (a ++ p)).
Proof.
  induction 1 as [|x xs Hx _ IH]; intros a; simpl.
  - now rewrite app_nil_r.
  - rewrite Hx. destruct (body [] x) as [p|e]; simpl; [|reflexivity].
    rewrite (IH (a ++ p)), (IH p).
    destruct (forOf body xs []) as [q|e]; simpl; [|reflexivity].
    now rewrite app_assoc.
Qed.

Lemma forOf_never_throws {A B : Type} (body : A -> B -> Result A) xs :
  Forall (fun x => forall a, exists a', body a x = Ok a') xs ->
  forall a, exists a', forOf body xs a = Ok a'.
Proof.
  induction 1 as [|x xs Hx _ IH]; intros a; simpl.
  - now exists a.
  - destruct (Hx a) as [a' ->]. simpl. apply IH.
Qed.

Lemma fold_left_pushes {B C : Type} (body : list C -> B -> list C) xs :
  Forall (fun x => forall a, body a x = a ++ body [] x) xs ->
  forall a, fold_left body xs a = a ++ fold_left body xs [].
Proof.
  induction 1 as [|x xs Hx _ IH]; intros a; simpl.
  - now rewrite app_nil_r.
  - rewrite Hx, (IH (a ++ body [] x)), (IH (body [] x)).
    now rewrite app_assoc.
Qed.

Section Unfolding.

Variable linkify : string -> list (string * bool).
Variable parsePillLink : string -> option PillData.
Variable mediaRepository : option MediaRepository.

Lemma _parseInlineNodes_turn_eq htmlNode into :
  _parseInlineNodes_turn linkify parsePillLink htmlNode into
  = let '(wasText, into) := _parseTextParts linkify htmlNode into in
    if wasText then into
    else match parseInlineNode linkify parsePillLink htmlNode with
         | Some node => into ++ [node]
         | None => _parseInlineNodes linkify parsePillLink
                     (getChildNodes htmlNode) into
         end.
Proof. destruct htmlNode; reflexivity. Qed.

Lemma _parseAnyNodes_turn_eq htmlNode into :
  _parseAnyNodes_turn linkify parsePillLink mediaRepository htmlNode into
  = let '(wasText, into) := _parseTextParts linkify htmlNode into in
    if wasText then Ok into
    else
      node <- match parseInlineNode linkify parsePillLink htmlNode with
              | Some inline => Ok (Some inline)
              | None => parseBlockNode linkify parsePillLink mediaRepository htmlNode
              end ;;
      match node with
      | Some node => Ok (into ++ [node])
      | None => _parseAnyNodes linkify parsePillLink mediaRepository
                  (getChildNodes htmlNode) into
      end.
Proof. destruct htmlNode; reflexivity. Qed.

Lemma _parseInlineNodes_cons htmlNode nodes into :
  _parseInlineNodes linkify parsePillLink (htmlNode :: nodes) into
  = _parseInlineNodes linkify parsePillLink nodes
      (_parseInlineNodes_turn linkify parsePillLink htmlNode into).
Proof. reflexivity. Qed.

Lemma _parseAnyNodes_cons htmlNode nodes into :
  _parseAnyNodes linkify parsePillLink mediaRepository (htmlNode :: nodes) into
  = (into' <- _parseAnyNodes_turn linkify parsePillLink mediaRepository htmlNode into ;;
     _parseAnyNodes linkify parsePillLink mediaRepository nodes into').
Proof. reflexivity. Qed.

Lemma _parseTextParts_text node into :
  isTextNode node = true ->
  _parseTextParts linkify node into
  = (true, into ++ fold_left linkifyCallback (linkify (getNodeText node)) []).
Proof.
  intros E. unfold _parseTextParts. rewrite E. simpl. f_equal.
  apply fold_left_pushes, Forall_forall.
  intros [text [|]] _ a; reflexivity.
Qed.

Lemma _parseTextParts_other node into :
  isTextNode node = false -> _parseTextParts linkify node into = (false, into).
Proof. intros E. unfold _parseTextParts. now rewrite E. Qed.

(** [_parseInlineNodes] only pushes onto [into]. *)
Lemma _parseInlineNodes_turn_pushes htmlNode :
  forall into,
    _parseInlineNodes_turn linkify parsePillLink htmlNode into
    = into ++ _parseInlineNodes_turn linkify parsePillLink htmlNode [].
Proof.
  induction htmlNode as [kind children IH] using Node_forest_ind. intros into.
  rewrite !_parseInlineNodes_turn_eq.
  destruct (isTextNode (mkNode kind children)) eqn:E.
  - rewrite (_parseTextParts_text _ into E), (_parseTextParts_text _ [] E).
    reflexivity.
  - rewrite !(_parseTextParts_other _ _ E).
    destruct (parseInlineNode _ _ _) as [part|]; [reflexivity|].
    apply fold_left_pushes. exact IH.
Qed.

Lemma _parseInlineNodes_pushes nodes into :
  _parseInlineNodes linkify parsePillLink nodes into
  = into ++ parseInlineNodes linkify parsePillLink nodes.
Proof.
  unfold _parseInlineNodes, parseInlineNodes, parseInlineNodesF, _parseInlineNodesF.
  apply fold_left_pushes, Forall_forall. intros node _ a.
  apply _parseInlineNodes_turn_pushes.
Qed.

Lemma parseInlineNodes_app nodes nodes' :
  parseInlineNodes linkify parsePillLink (nodes ++ nodes')
  = parseInlineNodes linkify parsePillLink nodes
    ++ parseInlineNodes linkify parsePillLink nodes'.
Proof.
  unfold parseInlineNodes at 1, parseInlineNodesF, _parseInlineNodesF.
  rewrite fold_left_app.
  exact (_parseInlineNodes_pushes nodes'
           (parseInlineNodes linkify parsePillLink nodes)).
Qed.

Lemma parseInlineNodes_cons htmlNode nodes :
  parseInlineNodes linkify parsePillLink (htmlNode :: nodes)
  = _parseInlineNodes_turn linkify parsePillLink htmlNode []
    ++ parseInlineNodes linkify parsePillLink nodes.
Proof.
  exact (_parseInlineNodes_pushes nodes
           (_parseInlineNodes_turn linkify parsePillLink htmlNode [])).
Qed.

End Unfolding.

Section AnyContextLemmas.

Variable linkify : string -> list (string * bool).
Variable parsePillLink : string -> option PillData.
Variable mediaRepository : option MediaRepository.

(** [_parseAnyNodes] only pushes onto [into], when it does not throw. *)
Lemma _parseAnyNodes_turn_pushes htmlNode :
  forall into,
    _parseAnyNodes_turn linkify parsePillLink mediaRepository htmlNode into
    = (pushed <- _parseAnyNodes_turn linkify parsePillLink mediaRepository
                   htmlNode [] ;;
       Ok (into ++ pushed)).
Proof.
  induction htmlNode as [kind children IH] using Node_forest_ind. intros into.
  rewrite !_parseAnyNodes_turn_eq.
  destruct (isTextNode (mkNode kind children)) eqn:E.
  - rewrite (_parseTextParts_text _ _ into E), (_parseTextParts_text _ _ [] E).
    reflexivity.
  - rewrite !(_parseTextParts_other _ _ _ E).
    destruct (parseInlineNode _ _ _) as [inline|]; [reflexivity|].
    destruct (parseBlockNode _ _ _ _) as [[block|]|e]; try reflexivity.
    simpl. apply (forOf_pushes _ _ IH).
Qed.

Lemma _parseAnyNodes_pushes nodes into :
  _parseAnyNodes linkify parsePillLink mediaRepository nodes into
  = (pushed <- parseAnyNodes linkify parsePillLink mediaRepository nodes ;;
     Ok (into ++ pushed)).
Proof.
  unfold _parseAnyNodes, parseAnyNodes, parseAnyNodesF, _parseAnyNodesF.
  apply forOf_pushes, Forall_forall. intros node _ a.
  apply _parseAnyNodes_turn_pushes.
Qed.

Lemma parseAnyNodes_app nodes nodes' :
  parseAnyNodes linkify parsePillLink mediaRepository (nodes ++ nodes')
  = (before <- parseAnyNodes linkify parsePillLink mediaRepository nodes ;;
     after <- parseAnyNodes linkify parsePillLink mediaRepository nodes' ;;
     Ok (before ++ after)).
Proof.
  unfold parseAnyNodes at 1, parseAnyNodesF, _parseAnyNodesF.
  rewrite forOf_app. apply bind_ext. intros before.
  exact (_parseAnyNodes_pushes nodes' before).
Qed.

Lemma parseAnyNodes_cons htmlNode nodes :
  parseAnyNodes linkify parsePillLink mediaRepository (htmlNode :: nodes)
  = (before <- _parseAnyNodes_turn linkify parsePillLink mediaRepository
                 htmlNode [] ;;
     after <- parseAnyNodes linkify parsePillLink mediaRepository nodes ;;
     Ok (before ++ after)).
Proof.
  unfold parseAnyNodes at 1, parseAnyNodesF. simpl. apply bind_ext.
  intros before. exact (_parseAnyNodes_pushes nodes before).
Qed.

End AnyContextLemmas.

(** ** With a media repository nothing throws *)

Section NeverThrows.

Variable linkify : string -> list (string * bool).
Variable parsePillLink : string -> option PillData.
Variable repository : MediaRepository.

Lemma parseImage_never_throws node :
  exists image, parseImage (Some repository) node = Ok image.
Proof.
  unfold parseImage. destruct (mxcUrl repository _) as [url|]; [|eauto].
  destruct (negb (JSString.truthy url)); eauto.
Qed.

Lemma parseList_never_throws node :
  Forall (fun child =>
            exists item,
              parseAnyNodes linkify parsePillLink (Some repository)
                (getChildNodes child) = Ok item)
         (getChildNodes node) ->
  exists list, parseList linkify parsePillLink (Some repository) node = Ok list.
Proof.
  intros items. unfold parseList, parseListF.
  match goal with
  | |- context [forOf ?body ?xs ?a] =>
      assert (loop : exists nodes, forOf body xs a = Ok nodes)
  end.
  { apply forOf_never_throws. eapply Forall_impl; [|exact items].
    intros child [item E] a. simpl in E.
    destruct (negb (elementNameIs child "LI")); [eauto|].
    fold (parseAnyNodes linkify parsePillLink (Some repository)).
    rewrite E. simpl. eauto. }
  destruct loop as [nodes ->]. simpl. eauto.
Qed.

Lemma parseBlockNode_never_throws node :
  (exists blocks,
      parseAnyNodes linkify parsePillLink (Some repository)
        (getChildNodes node) = Ok blocks) ->
  Forall (fun child =>
            exists item,
              parseAnyNodes linkify parsePillLink (Some repository)
                (getChildNodes child) = Ok item)
         (getChildNodes node) ->
  exists block,
    parseBlockNode linkify parsePillLink (Some repository) node = Ok block.
Proof.
  intros [blocks children] items.
  unfold parseBlockNode, parseBlockNodeF, parseBlockElementF.
  destruct (isElementNode node); [|eauto].
  destruct (getNodeElementName node) as [tag|]; [|eauto].
  destruct (isHeaderTag tag); [eauto|].
  destruct (String.eqb tag "UL" || String.eqb tag "OL").
  { destruct (parseList_never_throws node items) as [list E].
    unfold parseList in E. rewrite E. simpl. eauto. }
  destruct (String.eqb tag "PRE"); [eauto|].
  destruct (String.eqb tag "HR"); [eauto|].
  destruct (String.eqb tag "IMG"); [apply parseImage_never_throws|].
  destruct (String.eqb tag "P"); [eauto|].
  destruct (negb (includes basicBlock tag)); [eauto|].
  unfold parseAnyNodes in children. rewrite children. simpl. eauto.
Qed.

Lemma _parseAnyNodes_turn_never_throws htmlNode :
  (forall into,
      exists into',
        _parseAnyNodes_turn linkify parsePillLink (Some repository)
          htmlNode into = Ok into')
  /\ exists parts,
       parseAnyNodes linkify parsePillLink (Some repository)
         (getChildNodes htmlNode) = Ok parts.
Proof.
  induction htmlNode as [kind children IH] using Node_forest_ind.
  assert (loop : forall into,
             exists into',
               _parseAnyNodes linkify parsePillLink (Some repository)
                 children into = Ok into').
  { apply forOf_never_throws. eapply Forall_impl; [|exact IH].
    intros child [turn _]. exact turn. }
  split; [|apply loop]. intros into.
  rewrite _parseAnyNodes_turn_eq.
  destruct (_parseTextParts linkify _ into) as [[|] into1]; [eauto|].
  destruct (parseInlineNode _ _ _) as [inline|]; [simpl; eauto|].
  destruct (parseBlockNode_never_throws (mkNode kind children)) as [block ->].
  - apply loop.
  - eapply Forall_impl; [|exact IH]. intros child [_ below]. exact below.
  - destruct block; simpl; [eauto|apply loop].
Qed.

Lemma parseAnyNodes_never_throws nodes :
  exists parts,
    parseAnyNodes linkify parsePillLink (Some repository) nodes = Ok parts.
Proof.
  apply forOf_never_throws, Forall_forall. intros node _.
  apply _parseAnyNodes_turn_never_throws.
Qed.

End NeverThrows.

(** C1. For every input tree and every media repository, deserialization
    returns a message body and throws nothing: [parseAnyNodes] returns a
    sequence of parts for the root nodes, and [parseHTMLBody] returns the
    message body made of the source string and of that sequence. *)
Theorem parseHTMLBody_never_throws :
  forall linkify parsePillLink repository platform html,
  exists parts,
    parseAnyNodes linkify parsePillLink (Some repository)
      (parseHTML platform html) = Ok parts
    /\ parseHTMLBody linkify parsePillLink (Some repository) platform html
       = Ok (mkMessageBody html parts).
Proof.
  intros linkify parsePillLink repository platform html.
  destruct (parseAnyNodes_never_throws linkify parsePillLink repository
              (parseHTML platform html)) as [parts E].
  exists parts. split; [exact E|].
  unfold parseHTMLBody. now rewrite E.
Qed.

(** ** One node at a time *)

Section Turns.

Variable linkify : string -> list (string * bool).
Variable parsePillLink : string -> option PillData.
Variable mediaRepository : option MediaRepository.

Lemma parseInlineNodes_one htmlNode :
  parseInlineNodes linkify parsePillLink [htmlNode]
  = _parseInlineNodes_turn linkify parsePillLink htmlNode [].
Proof. reflexivity. Qed.

Lemma parseAnyNodes_one htmlNode :
  parseAnyNodes linkify parsePillLink mediaRepository [htmlNode]
  = _parseAnyNodes_turn linkify parsePillLink mediaRepository htmlNode [].
Proof.
  unfold parseAnyNodes, parseAnyNodesF, _parseAnyNodesF. simpl.
  apply bind_Ok_r.
Qed.

Lemma element_is_no_text node :
  isElementNode node = true -> isTextNode node = false.
Proof.
  unfold isElementNode, isTextNode. destruct (nodeKind node); congruence.
Qed.

Lemma parseInlineNode_element node part :
  parseInlineNode linkify parsePillLink node = Some part ->
  isElementNode node = true.
Proof.
  unfold parseInlineNode, parseInlineNodeF.
  destruct (isElementNode node); congruence.
Qed.

(** An element that [parseInlineNode] interprets is pushed, in both
    contexts. *)
Lemma inline_part_is_pushed node part into :
  parseInlineNode linkify parsePillLink node = Some part ->
  _parseInlineNodes_turn linkify parsePillLink node into = into ++ [part]
  /\ _parseAnyNodes_turn linkify parsePillLink mediaRepository node into
     = Ok (into ++ [part]).
Proof.
  intros E. pose proof (element_is_no_text _ (parseInlineNode_element _ _ E)) as T.
  rewrite _parseInlineNodes_turn_eq, _parseAnyNodes_turn_eq.
  rewrite (_parseTextParts_other _ _ _ T), E. split; reflexivity.
Qed.

(** An element that only [parseBlockNode] interprets is pushed in mixed
    context. *)
Lemma block_part_is_pushed node part into :
  isElementNode node = true ->
  parseInlineNode linkify parsePillLink node = None ->
  parseBlockNode linkify parsePillLink mediaRepository node = Ok (Some part) ->
  _parseAnyNodes_turn linkify parsePillLink mediaRepository node into
  = Ok (into ++ [part]).
Proof.
  intros K I B. rewrite _parseAnyNodes_turn_eq.
  rewrite (_parseTextParts_other _ _ _ (element_is_no_text _ K)), I, B.
  reflexivity.
Qed.

(** An element that neither interprets gives way to its child nodes. *)
Lemma inline_fallback node into :
  isElementNode node = true ->
  parseInlineNode linkify parsePillLink node = None ->
  _parseInlineNodes_turn linkify parsePillLink node into
  = _parseInlineNodes linkify parsePillLink (getChildNodes node) into.
Proof.
  intros K I. rewrite _parseInlineNodes_turn_eq.
  now rewrite (_parseTextParts_other _ _ _ (element_is_no_text _ K)), I.
Qed.

Lemma mixed_fallback node into :
  isElementNode node = true ->
  parseInlineNode linkify parsePillLink node = None ->
  parseBlockNode linkify parsePillLink mediaRepository node = Ok None ->
  _parseAnyNodes_turn linkify parsePillLink mediaRepository node into
  = _parseAnyNodes linkify parsePillLink mediaRepository (getChildNodes node) into.
Proof.
  intros K I B. rewrite _parseAnyNodes_turn_eq.
  now rewrite (_parseTextParts_other _ _ _ (element_is_no_text _ K)), I, B.
Qed.

Lemma block_part_alone node part :
  isElementNode node = true ->
  parseInlineNode linkify parsePillLink node = None ->
  parseBlockNode linkify parsePillLink mediaRepository node = Ok (Some part) ->
  parseAnyNodes linkify parsePillLink mediaRepository [node] = Ok [part].
Proof.
  intros K I B. rewrite parseAnyNodes_one.
  exact (block_part_is_pushed node part [] K I B).
Qed.

Lemma inline_fallback_alone node :
  isElementNode node = true ->
  parseInlineNode linkify parsePillLink node = None ->
  parseInlineNodes linkify parsePillLink [node]
  = parseInlineNodes linkify parsePillLink (getChildNodes node).
Proof.
  intros K I. rewrite parseInlineNodes_one.
  exact (inline_fallback node [] K I).
Qed.

Lemma mixed_fallback_alone node :
  isElementNode node = true ->
  parseInlineNode linkify parsePillLink node = None ->
  parseBlockNode linkify parsePillLink mediaRepository node = Ok None ->
  parseAnyNodes linkify parsePillLink mediaRepository [node]
  = parseAnyNodes linkify parsePillLink mediaRepository (getChildNodes node).
Proof.
  intros K I B. rewrite parseAnyNodes_one.
  exact (mixed_fallback node [] K I B).
Qed.

(** [inlineRule] and [blockRule] are the cases of the two dispatchers. *)
Lemma parseInlineNode_no_rule tag attributes children :
  inlineRule tag = false ->
  parseInlineNode linkify parsePillLink
    (mkNode (ElementKind tag attributes) children) = None.
Proof.
  unfold inlineRule. intros R.
  apply orb_false_iff in R as [R basic]. apply orb_false_iff in R as [a br].
  cbv [parseInlineNode parseInlineNodeF parseInlineElementF isElementNode
       getNodeElementName nodeKind].
  now rewrite a, br, basic.
Qed.

Lemma parseInlineNode_rule tag attributes children :
  inlineRule tag = true ->
  exists part,
    parseInlineNode linkify parsePillLink
      (mkNode (ElementKind tag attributes) children) = Some part.
Proof.
  unfold inlineRule. intros R.
  cbv [parseInlineNode parseInlineNodeF parseInlineElementF isElementNode
       getNodeElementName nodeKind].
  destruct (String.eqb tag "A"); [eauto|].
  destruct (String.eqb tag "BR"); [eauto|].
  cbn [orb] in R. rewrite R. cbn [negb]. eauto.
Qed.

Lemma parseBlockNode_no_rule tag attributes children :
  blockRule tag = false ->
  parseBlockNode linkify parsePillLink mediaRepository
    (mkNode (ElementKind tag attributes) children) = Ok None.
Proof.
  unfold blockRule. intros R.
  cbv [parseBlockNode parseBlockNodeF parseBlockElementF isElementNode
       getNodeElementName nodeKind].
  destruct (isHeaderTag tag); cbn [orb] in R; [discriminate|].
  destruct (String.eqb tag "UL"); cbn [orb] in R; [discriminate|].
  destruct (String.eqb tag "OL"); cbn [orb] in R; [discriminate|].
  destruct (String.eqb tag "PRE"); cbn [orb] in R; [discriminate|].
  destruct (String.eqb tag "HR"); cbn [orb] in R; [discriminate|].
  destruct (String.eqb tag "IMG"); cbn [orb] in R; [discriminate|].
  destruct (String.eqb tag "P"); cbn [orb] in R; [discriminate|].
  now rewrite R.
Qed.

End Turns.

(** C3. An element whose tag has no rule in the traversal context at hand
    contributes no part of its own: the classification of a node sequence
    that holds it is the classification of the nodes before it, then that of
    its child nodes under the same context, then that of the nodes after
    it. *)
Theorem unknown_element_is_unwrapped :
  forall linkify parsePillLink mediaRepository context tag attributes children
         before after,
    ruleApplies context tag = false ->
    classify linkify parsePillLink mediaRepository context
      (before ++ mkNode (ElementKind tag attributes) children :: after)
    = (first <- classify linkify parsePillLink mediaRepository context before ;;
       spliced <- classify linkify parsePillLink mediaRepository context children ;;
       last <- classify linkify parsePillLink mediaRepository context after ;;
       Ok (first ++ spliced ++ last)).
Proof.
  intros linkify parsePillLink mediaRepository [|] tag attributes children
         before after R; simpl in *.
  - f_equal. rewrite parseInlineNodes_app, parseInlineNodes_cons.
    rewrite inline_fallback by auto using parseInlineNode_no_rule.
    reflexivity.
  - apply orb_false_iff in R as [I B].
    rewrite parseAnyNodes_app, parseAnyNodes_cons.
    rewrite (mixed_fallback _ _ mediaRepository)
      by auto using parseInlineNode_no_rule, parseBlockNode_no_rule.
    simpl.
    change (_parseAnyNodes linkify parsePillLink mediaRepository children [])
      with (parseAnyNodes linkify parsePillLink mediaRepository children).
    destruct (parseAnyNodes _ _ _ before); simpl; [|reflexivity].
    destruct (parseAnyNodes _ _ _ children); simpl; [|reflexivity].
    destruct (parseAnyNodes _ _ _ after); reflexivity.
Qed.

Lemma unknown_element_is_unwrapped_witness :
  classify Sample.linkify Sample.parsePillLink None Inline
    ([TextNode "a"] ++ mkNode (ElementKind "DFN" []) [TextNode "b"] :: [TextNode "c"])
  = Ok [TextPart "a"; TextPart "b"; TextPart "c"]
  /\ classify Sample.linkify Sample.parsePillLink None Mixed
       ([] ++ mkNode (ElementKind "FOOTER" [("class", "x")])
                [ElementNode "EM" [] [TextNode "World"]] :: [])
     = Ok [mkFormatPart "em" [TextPart "World"]].
Proof.
  split.
  - rewrite (unknown_element_is_unwrapped Sample.linkify Sample.parsePillLink
               None Inline "DFN" [] [TextNode "b"] [TextNode "a"] [TextNode "c"]
               eq_refl).
    reflexivity.
  - rewrite (unknown_element_is_unwrapped Sample.linkify Sample.parsePillLink
               None Mixed "FOOTER" [("class", "x")]
               [ElementNode "EM" [] [TextNode "World"]] [] [] eq_refl).
    reflexivity.
Defined.

(** ** Anchors *)

Lemma parseInlineNode_anchor linkify parsePillLink attributes children :
  parseInlineNode linkify parsePillLink
    (mkNode (ElementKind "A" attributes) children)
  = Some (parseLink parsePillLink (mkNode (ElementKind "A" attributes) children)
            (parseInlineNodes linkify parsePillLink children)).
Proof. reflexivity. Qed.

Lemma anchor_is_pushed linkify parsePillLink mediaRepository attributes children :
  let node := mkNode (ElementKind "A" attributes) children in
  let part := parseLink parsePillLink node
                (parseInlineNodes linkify parsePillLink children) in
  parseInlineNodes linkify parsePillLink [node] = [part]
  /\ parseAnyNodes linkify parsePillLink mediaRepository [node] = Ok [part].
Proof.
  intros node part. rewrite parseInlineNodes_one, parseAnyNodes_one.
  apply (inline_part_is_pushed linkify parsePillLink mediaRepository node part []).
  apply parseInlineNode_anchor.
Qed.

Lemma truthy_not_empty s : JSString.truthy s = true <-> s <> EmptyString.
Proof. destruct s; simpl; split; congruence. Qed.

(** C7. The children of an anchor element are classified in inline context,
    and the element is one part in either context: a Pill with the user id,
    the href and those children when the recognizer, applied to the
    (non-empty) href, recognizes a user id, and a Link with the href and
    those children in every other case. *)
Theorem anchor_is_pill_or_link :
  forall linkify parsePillLink mediaRepository attributes children,
    let node := mkNode (ElementKind "A" attributes) children in
    let href := getAttributeValue node "href" in
    let inlines := parseInlineNodes linkify parsePillLink children in
    exists part,
      parseInlineNodes linkify parsePillLink [node] = [part]
      /\ parseAnyNodes linkify parsePillLink mediaRepository [node] = Ok [part]
      /\ ((exists h id,
              href = Some h /\ h <> EmptyString
              /\ recognizes parsePillLink h id
              /\ part = PillPart id h inlines)
          \/ ((forall h id,
                  href = Some h -> h <> EmptyString ->
                  ~ recognizes parsePillLink h id)
              /\ part = LinkPart href inlines)).
Proof.
  intros linkify parsePillLink mediaRepository attributes children
         node href inlines.
  exists (parseLink parsePillLink node inlines).
  destruct (anchor_is_pushed linkify parsePillLink mediaRepository
              attributes children) as [I M].
  split; [exact I|]. split; [exact M|]. clear I M.
  unfold parseLink, pillDataOf, truthyUserId. fold href.
  destruct href as [h|].
  2:{ right. split; [intros h id E; discriminate E|reflexivity]. }
  destruct (JSString.truthy h) eqn:T.
  2:{ right. split; [|reflexivity]. intros h' id E N _. injection E as <-.
      apply truthy_not_empty in N. congruence. }
  destruct (parsePillLink h) as [pillData|] eqn:P.
  2:{ right. split; [|reflexivity]. intros h' id E _ [data [D _]].
      injection E as <-. congruence. }
  destruct (userId pillData) as [id|] eqn:U.
  2:{ right. split; [|reflexivity]. intros h' id E _ [data [D [U' _]]].
      injection E as <-. congruence. }
  destruct (JSString.truthy id) eqn:Tid.
  - left. exists h, id. repeat split.
    + now apply truthy_not_empty.
    + exists pillData. repeat split; auto. now apply truthy_not_empty.
  - right. split; [|reflexivity]. intros h' id' E _ [data [D [U' N]]].
    injection E as <-. apply truthy_not_empty in N.
    rewrite P in D. injection D as <-. congruence.
Qed.

(** C10. For an anchor element whose href is absent or empty the recognizer
    is not consulted, the part built being the same Link whatever the
    recognizer: the element is, in either context, a Link that carries the
    href as read and the children classified in inline context. *)
Theorem anchor_without_href_is_link :
  forall linkify parsePillLink mediaRepository attributes children,
    let node := mkNode (ElementKind "A" attributes) children in
    let href := getAttributeValue node "href" in
    href = None \/ href = Some EmptyString ->
    (forall recognizer inlines,
        parseLink recognizer node inlines = LinkPart href inlines)
    /\ parseInlineNodes linkify parsePillLink [node]
       = [LinkPart href (parseInlineNodes linkify parsePillLink children)]
    /\ parseAnyNodes linkify parsePillLink mediaRepository [node]
       = Ok [LinkPart href (parseInlineNodes linkify parsePillLink children)].
Proof.
  intros linkify parsePillLink mediaRepository attributes children node href H.
  assert (L : forall recognizer inlines,
             parseLink recognizer node inlines = LinkPart href inlines).
  { intros recognizer inlines. unfold parseLink, pillDataOf. fold href.
    destruct H as [-> | ->]; reflexivity. }
  split; [exact L|].
  destruct (anchor_is_pushed linkify parsePillLink mediaRepository
              attributes children) as [I M].
  fold node in I, M. rewrite L in I, M. split; assumption.
Qed.

Lemma anchor_without_href_is_link_witness :
  Sample.parse [ElementNode "A" [("name", "top")] [TextNode "here"]]
  = Ok [LinkPart None [TextPart "here"]]
  /\ Sample.parse [ElementNode "A" [("href", "")] [TextNode "here"]]
     = Ok [LinkPart (Some "") [TextPart "here"]].
Proof.
  split.
  - exact (proj2 (proj2 (anchor_without_href_is_link Sample.linkify
                           Sample.parsePillLink None [("name", "top")]
                           [TextNode "here"] (or_introl eq_refl)))).
  - exact (proj2 (proj2 (anchor_without_href_is_link Sample.linkify
                           Sample.parsePillLink None [("href", "")]
                           [TextNode "here"] (or_intror eq_refl)))).
Defined.

(** ** Paragraphs *)

(** C9. A paragraph element in block context is one Format part, whose tag
    is the lower-case "p" although the element name is the upper-case "P",
    and whose children are the child nodes classified in inline context. *)
Theorem paragraph_is_lower_case_format :
  forall linkify parsePillLink mediaRepository attributes children into,
    let node := mkNode (ElementKind "P" attributes) children in
    getNodeElementName node = Some "P"
    /\ parseAnyNodes linkify parsePillLink mediaRepository [node]
       = Ok [mkFormatPart "p" (parseInlineNodes linkify parsePillLink children)]
    /\ _parseAnyNodes_turn linkify parsePillLink mediaRepository node into
       = Ok (into ++ [mkFormatPart "p"
                        (parseInlineNodes linkify parsePillLink children)]).
Proof.
  intros linkify parsePillLink mediaRepository attributes children into node.
  split; [reflexivity|].
  assert (T : forall acc,
             _parseAnyNodes_turn linkify parsePillLink mediaRepository node acc
             = Ok (acc ++ [mkFormatPart "p"
                             (parseInlineNodes linkify parsePillLink children)])).
  { intros acc. apply block_part_is_pushed; reflexivity. }
  split; [|apply T]. rewrite parseAnyNodes_one. apply T.
Qed.

(** ** Lists *)

Lemma sequence_never_throws {A B : Type} (f : A -> Result B) xs :
  (forall x, exists value, f x = Ok value) ->
  exists values,
    sequence (map f xs) = Ok values
    /\ Forall2 (fun x value => f x = Ok value) xs values.
Proof.
  intros total. induction xs as [|x xs [values [E F]]]; simpl.
  - exists []. split; [reflexivity|constructor].
  - destruct (total x) as [value V]. exists (value :: values).
    rewrite V, E. split; [reflexivity|]. now constructor.
Qed.

Lemma orNumber_cases n d :
  JSNumber.orNumber n d
  = match n with
    | Num z => if z =? 0 then d else z
    | NaN => d
    end.
Proof.
  unfold JSNumber.orNumber, JSNumber.truthy.
  destruct n as [|z]; [reflexivity|]. now destruct (z =? 0).
Qed.

Section Lists.

Variable linkify : string -> list (string * bool).
Variable parsePillLink : string -> option PillData.
Variable mediaRepository : option MediaRepository.

(** The loop of [parseList] keeps the [LI] children, one item for each. *)
Lemma parseList_loop children :
  forall nodes,
    forOf (fun nodes child =>
             if negb (elementNameIs child "LI") then Ok nodes
             else
               item <- parseAnyNodes linkify parsePillLink mediaRepository
                         (getChildNodes child) ;;
               Ok (nodes ++ [item]))
          children nodes
    = (items <- sequence
                  (map (fun item =>
                          parseAnyNodes linkify parsePillLink mediaRepository
                            (getChildNodes item))
                       (filter (fun child => elementNameIs child "LI") children)) ;;
       Ok (nodes ++ items)).
Proof.
  induction children as [|child rest IH]; intros nodes; simpl.
  - now rewrite app_nil_r.
  - destruct (elementNameIs child "LI"); simpl; [|apply IH].
    destruct (parseAnyNodes _ _ _ (getChildNodes child)) as [item|e]; simpl;
      [|reflexivity].
    rewrite IH. destruct (sequence _) as [items|e]; simpl; [|reflexivity].
    now rewrite <- app_assoc.
Qed.

Lemma parseList_eq node :
  parseList linkify parsePillLink mediaRepository node
  = (items <- sequence
                (map (fun item =>
                        parseAnyNodes linkify parsePillLink mediaRepository
                          (getChildNodes item))
                     (listItems node)) ;;
     Ok (ListBlock
           (if elementNameIs node "OL"
            then Some (JSNumber.orNumber
                         (JSNumber.parseInt (getAttributeValue node "start")) 1)
            else None)
           items)).
Proof.
  unfold parseList, parseListF.
  fold (parseAnyNodes linkify parsePillLink mediaRepository).
  rewrite parseList_loop. unfold listItems.
  destruct (sequence _); reflexivity.
Qed.

(** In block context a list element is the part [parseList] returns. *)
Lemma list_element_is_pushed attributes children :
  parseAnyNodes linkify parsePillLink mediaRepository
    [mkNode (ElementKind "OL" attributes) children]
  = (list <- parseList linkify parsePillLink mediaRepository
               (mkNode (ElementKind "OL" attributes) children) ;;
     Ok [list])
  /\ parseAnyNodes linkify parsePillLink mediaRepository
       [mkNode (ElementKind "UL" attributes) children]
     = (list <- parseList linkify parsePillLink mediaRepository
                  (mkNode (ElementKind "UL" attributes) children) ;;
        Ok [list]).
Proof.
  split; rewrite parseAnyNodes_one, _parseAnyNodes_turn_eq;
    cbv [_parseTextParts isTextNode nodeKind negb];
    change (parseInlineNode linkify parsePillLink (mkNode _ children))
      with (@None Part);
    cbv [parseBlockNode parseBlockNodeF parseBlockElementF isElementNode
         getNodeElementName nodeKind];
    cbn [isHeaderTag String.eqb Ascii.eqb Bool.eqb orb andb];
    fold (parseList linkify parsePillLink mediaRepository);
    destruct (parseList _ _ _ _); reflexivity.
Qed.

End Lists.

Lemma parseList_with_repository linkify parsePillLink repository node :
  exists items,
    Forall2 (fun item parts =>
               parseAnyNodes linkify parsePillLink (Some repository)
                 (getChildNodes item) = Ok parts)
            (listItems node) items
    /\ parseList linkify parsePillLink (Some repository) node
       = Ok (ListBlock
               (if elementNameIs node "OL"
                then Some (JSNumber.orNumber
                             (JSNumber.parseInt (getAttributeValue node "start")) 1)
                else None)
               items).
Proof.
  destruct (sequence_never_throws
              (fun item => parseAnyNodes linkify parsePillLink (Some repository)
                             (getChildNodes item))
              (listItems node)) as [items [E F]].
  - intros item. apply parseAnyNodes_never_throws.
  - exists items. split; [exact F|]. rewrite parseList_eq, E. reflexivity.
Qed.

(** C8. [parseList] keeps, of the child nodes of a list element, the [LI]
    elements only, and classifies the child nodes of each in mixed context:
    the items of the List part are those classifications, one for each [LI]
    child in document order (the list throws when one of them does; with a
    media repository none does). *)
Theorem list_items_are_the_li_children :
  forall linkify parsePillLink mediaRepository repository node,
    (exists startOffset,
        parseList linkify parsePillLink mediaRepository node
        = (items <- sequence
                      (map (fun item =>
                              parseAnyNodes linkify parsePillLink mediaRepository
                                (getChildNodes item))
                           (filter (fun child => elementNameIs child "LI")
                                   (getChildNodes node))) ;;
           Ok (ListBlock startOffset items)))
    /\ (exists startOffset items,
           parseList linkify parsePillLink (Some repository) node
           = Ok (ListBlock startOffset items)
           /\ Forall2 (fun item parts =>
                         parseAnyNodes linkify parsePillLink (Some repository)
                           (getChildNodes item) = Ok parts)
                      (filter (fun child => elementNameIs child "LI")
                              (getChildNodes node))
                      items).
Proof.
  intros linkify parsePillLink mediaRepository repository node. split.
  - eexists. apply parseList_eq.
  - destruct (parseList_with_repository linkify parsePillLink repository node)
      as [items [F E]].
    eexists. exists items. split; [exact E|exact F].
Qed.

(** C4, amended. The starting index of the List part of an ordered list is
    the integer that [parseInt] reads from the [start] attribute when there
    is one and it is not zero, and 1 when the attribute is missing, when
    [parseInt] reads no integer from it, or when the integer is zero; for
    any other list element it is absent. *)
Theorem list_start_offset :
  forall linkify parsePillLink repository node,
  exists items,
    parseList linkify parsePillLink (Some repository) node
    = Ok (ListBlock
            (if elementNameIs node "OL"
             then Some (match JSNumber.parseInt (getAttributeValue node "start") with
                        | Num z => if z =? 0 then 1 else z
                        | NaN => 1
                        end)
             else None)
            items).
Proof.
  intros linkify parsePillLink repository node.
  destruct (parseList_with_repository linkify parsePillLink repository node)
    as [items [_ E]].
  exists items. rewrite E, orNumber_cases. reflexivity.
Qed.

(** The start attribute "0" is present and [parseInt] reads the integer 0
    from it, yet the starting index of the List part is not that integer: the
    list starts at 1. *)
Lemma list_start_zero_is_one :
  let node :=
    ElementNode "OL" [("start", "0")] [ElementNode "LI" [] [TextNode "x"]] in
  getAttributeValue node "start" = Some "0"
  /\ JSNumber.parseInt (getAttributeValue node "start") = Num 0
  /\ parseList Sample.linkify Sample.parsePillLink (Some Sample.repository) node
     = Ok (ListBlock (Some 1) [[TextPart "x"]])
  /\ forall items,
       parseList Sample.linkify Sample.parsePillLink (Some Sample.repository) node
       <> Ok (ListBlock (Some 0) items).
Proof. repeat split. intros items. discriminate. Qed.

Example list_start_1A :
  Sample.parse [ElementNode "OL" [("start", "1A")] []] = Ok [ListBlock (Some 1) []].
Proof. reflexivity. Qed.

Example list_start_unparsable :
  Sample.parse [ElementNode "OL" [("start", "three")] []] = Ok [ListBlock (Some 1) []].
Proof. reflexivity. Qed.

Example list_drops_other_children :
  Sample.parse [ElementNode "UL" []
                  [TextNode " "; ElementNode "LI" [] [ElementNode "P" [] [TextNode "a"]];
                   ElementNode "EM" [] [TextNode "lost"]; CommentNode;
                   ElementNode "LI" [] [TextNode "b"]]]
  = Ok [ListBlock None [[mkFormatPart "p" [TextPart "a"]]; [TextPart "b"]]].
Proof. reflexivity. Qed.

(** ** Code blocks *)

Lemma prefix_split p s :
  String.prefix p s = true -> exists rest, s = (p ++ rest)%string.
Proof.
  revert s. induction p as [|a p IH]; intros s E; simpl in *.
  - now exists s.
  - destruct s as [|b s]; [discriminate|]. simpl in E.
    destruct (ascii_dec a b) as [<-|]; [|discriminate].
    destruct (IH s E) as [rest ->]. now exists rest.
Qed.

Lemma prefix_append p q rest :
  String.prefix (p ++ q) (p ++ rest) = String.prefix q rest.
Proof.
  induction p as [|a p IH]; simpl; [reflexivity|].
  destruct (ascii_dec a a); [exact IH|congruence].
Qed.

Lemma prefix_one a s :
  String.prefix (String a EmptyString) s
  = match s with
    | EmptyString => false
    | String c _ => Ascii.eqb c a
    end.
Proof.
  destruct s as [|c s]; [reflexivity|]. cbn [String.prefix].
  destruct (ascii_dec a c) as [<-|N].
  - rewrite Ascii.eqb_refl. now destruct s.
  - destruct (Ascii.eqb_spec c a); [congruence|reflexivity].
Qed.

Lemma get_append p rest :
  String.get (String.length p) (p ++ rest) = String.get 0 rest.
Proof. induction p as [|a p IH]; simpl; [reflexivity|exact IH]. Qed.

(** The test of [parseCodeBlock] on a class name is the test on a token in
    the words of the specification. *)
Lemma isLanguageToken_eq clname :
  (JSString.startsWith clname "language-"
   && negb (JSString.startsWith clname "language-_"))%bool
  = isLanguageToken clname.
Proof.
  unfold isLanguageToken, JSString.startsWith.
  destruct (String.prefix "language-" clname) eqn:P; [|reflexivity].
  destruct (prefix_split _ _ P) as [rest ->]. cbn [andb].
  change "language-_" with ("language-" ++ "_")%string.
  rewrite prefix_append.
  change 9%nat with (String.length "language-"). rewrite get_append.
  rewrite prefix_one. now destruct rest.
Qed.

Lemma languageOf_label class :
  languageOf (JSString.split " " (JSString.orEmpty class)) = languageLabel class.
Proof.
  unfold languageLabel.
  induction (JSString.split " " (JSString.orEmpty class)) as [|clname rest IH];
    simpl; [reflexivity|].
  rewrite isLanguageToken_eq. now destruct (isLanguageToken clname).
Qed.

Lemma parseCodeBlock_code node codeNode :
  hd_error (getChildNodes node) = Some codeNode ->
  elementNameIs codeNode "CODE" = true ->
  parseCodeBlock node
  = Some (CodeBlock (languageLabel (getAttributeValue codeNode "class"))
                    (textContent codeNode)).
Proof.
  intros F C. unfold parseCodeBlock. rewrite F, C. cbn [negb].
  now rewrite languageOf_label.
Qed.

Lemma parseCodeBlock_no_code node :
  (forall first,
      hd_error (getChildNodes node) = Some first ->
      elementNameIs first "CODE" = false) ->
  parseCodeBlock node = None.
Proof.
  intros N. unfold parseCodeBlock.
  destruct (hd_error (getChildNodes node)) as [first|]; [|reflexivity].
  now rewrite (N first eq_refl).
Qed.

Lemma parseBlockNode_pre linkify parsePillLink mediaRepository attributes children :
  parseBlockNode linkify parsePillLink mediaRepository
    (mkNode (ElementKind "PRE" attributes) children)
  = Ok (parseCodeBlock (mkNode (ElementKind "PRE" attributes) children)).
Proof. reflexivity. Qed.

(** C5. A [PRE] element in block context. When its first child node is a
    [CODE] element, it is one CodeBlock, whose language is the label of the
    class attribute of that child ([languageLabel]) and whose text is the
    text content of that child. When its first child node is no [CODE]
    element, or there is none, [parseCodeBlock] returns nothing and the
    element gives way to its child nodes, classified under the context at
    hand. *)
Theorem preformatted_block :
  forall linkify parsePillLink mediaRepository attributes children,
    let node := mkNode (ElementKind "PRE" attributes) children in
    (forall codeNode,
        hd_error children = Some codeNode ->
        elementNameIs codeNode "CODE" = true ->
        parseAnyNodes linkify parsePillLink mediaRepository [node]
        = Ok [CodeBlock (languageLabel (getAttributeValue codeNode "class"))
                        (textContent codeNode)])
    /\ ((forall first,
            hd_error children = Some first ->
            elementNameIs first "CODE" = false) ->
        parseCodeBlock node = None
        /\ forall context,
             classify linkify parsePillLink mediaRepository context [node]
             = classify linkify parsePillLink mediaRepository context children).
Proof.
  intros linkify parsePillLink mediaRepository attributes children node.
  subst node. split.
  - intros codeNode F C. apply block_part_alone; try reflexivity.
    rewrite parseBlockNode_pre. f_equal. now apply parseCodeBlock_code.
  - intros N.
    pose proof (parseCodeBlock_no_code
                  (mkNode (ElementKind "PRE" attributes) children) N) as E.
    split; [exact E|]. intros [|]; cbn [classify].
    + reflexivity.
    + apply mixed_fallback_alone; try reflexivity.
      rewrite parseBlockNode_pre. now f_equal.
Qed.

Lemma preformatted_block_witness :
  Sample.parse
    [ElementNode "PRE" []
       [ElementNode "CODE" [("class", "language-_x  language-ml language-c")]
          [TextNode "let "; ElementNode "B" [] [TextNode "x"]]]]
  = Ok [CodeBlock "ml" "let x"]
  /\ Sample.parse [ElementNode "PRE" [] [TextNode "a"; ElementNode "CODE" [] [TextNode "b"]]]
     = Sample.parse [TextNode "a"; ElementNode "CODE" [] [TextNode "b"]].
Proof.
  split.
  - exact (proj1 (preformatted_block Sample.linkify Sample.parsePillLink None []
                   [ElementNode "CODE" [("class", "language-_x  language-ml language-c")]
                      [TextNode "let "; ElementNode "B" [] [TextNode "x"]]])
                 _ eq_refl eq_refl).
  - refine (proj2 (proj2 (preformatted_block Sample.linkify Sample.parsePillLink
                            None []
                            [TextNode "a"; ElementNode "CODE" [] [TextNode "b"]])
                         _) Mixed).
    intros first E. injection E as <-. reflexivity.
Defined.

(** ** Images *)

Lemma orNull_cases n :
  JSNumber.orNull n
  = match n with
    | Num z => if z =? 0 then None else Some z
    | NaN => None
    end.
Proof. reflexivity. Qed.

Lemma parseBlockNode_img linkify parsePillLink mediaRepository attributes children :
  parseBlockNode linkify parsePillLink mediaRepository
    (mkNode (ElementKind "IMG" attributes) children)
  = parseImage mediaRepository (mkNode (ElementKind "IMG" attributes) children).
Proof. reflexivity. Qed.

(** C6, amended. An [IMG] element in block context, with a media
    repository. Its [src], the empty string when the attribute is absent, is
    resolved by the repository. When that gives no URL, [parseImage] returns
    nothing and the element gives way to its child nodes. When it gives a
    URL, the element is one Image part with that URL, whose width and
    height are the integers [parseInt] reads from the attributes, absent
    when the attribute is missing, when no integer is read or when the
    integer is zero, and whose alt and title are the attribute values as
    read. *)
Theorem image_element :
  forall linkify parsePillLink repository attributes children,
    let node := mkNode (ElementKind "IMG" attributes) children in
    let src := JSString.orEmpty (getAttributeValue node "src") in
    let dimension := fun value =>
      match JSNumber.parseInt value with
      | Num z => if z =? 0 then None else Some z
      | NaN => None
      end in
    (mxcUrl repository src = None \/ mxcUrl repository src = Some EmptyString ->
     parseImage (Some repository) node = Ok None
     /\ parseAnyNodes linkify parsePillLink (Some repository) [node]
        = parseAnyNodes linkify parsePillLink (Some repository) children)
    /\ (forall url,
           mxcUrl repository src = Some url -> url <> EmptyString ->
           parseAnyNodes linkify parsePillLink (Some repository) [node]
           = Ok [ImagePart url
                   (dimension (getAttributeValue node "width"))
                   (dimension (getAttributeValue node "height"))
                   (getAttributeValue node "alt")
                   (getAttributeValue node "title")]).
Proof.
  intros linkify parsePillLink repository attributes children node src dimension.
  subst node src dimension. split.
  - intros U.
    assert (E : parseImage (Some repository)
                  (mkNode (ElementKind "IMG" attributes) children) = Ok None).
    { unfold parseImage. destruct U as [-> | ->]; reflexivity. }
    split; [exact E|].
    apply mixed_fallback_alone; try reflexivity.
    now rewrite parseBlockNode_img.
  - intros url U N. apply block_part_alone; try reflexivity.
    rewrite parseBlockNode_img. unfold parseImage. rewrite U.
    apply truthy_not_empty in N. rewrite N. reflexivity.
Qed.

Lemma image_element_witness :
  Sample.parseWithMedia [ElementNode "IMG" [("src", "https://example.org/a.png")] []]
  = Ok []
  /\ Sample.parseWithMedia
       [ElementNode "IMG" [("src", "mxc://hs/abc"); ("width", "32px");
                            ("height", "x"); ("title", "cat")] []]
     = Ok [ImagePart "https://hs/_matrix/media/r0/download/hs/abc"
                     (Some 32) None None (Some "cat")].
Proof.
  split.
  - exact (proj2 (proj1 (image_element Sample.linkify Sample.parsePillLink
                           Sample.repository
                           [("src", "https://example.org/a.png")] [])
                        (or_introl eq_refl))).
  - refine (proj2 (image_element Sample.linkify Sample.parsePillLink
                     Sample.repository
                     [("src", "mxc://hs/abc"); ("width", "32px");
                      ("height", "x"); ("title", "cat")] [])
                  _ eq_refl _).
    discriminate.
Defined.

(** The width attribute "0" is present and [parseInt] reads the integer 0
    from it, it is neither missing nor unparsable, yet the Image part has
    no width. *)
Lemma image_width_zero_is_absent :
  let node := ElementNode "IMG" [("src", "mxc://hs/abc"); ("width", "0")] [] in
  getAttributeValue node "width" = Some "0"
  /\ JSNumber.parseInt (getAttributeValue node "width") = Num 0
  /\ parseImage (Some Sample.repository) node
     = Ok (Some (ImagePart "https://hs/_matrix/media/r0/download/hs/abc"
                           None None None None))
  /\ Sample.parseWithMedia [node]
     = Ok [ImagePart "https://hs/_matrix/media/r0/download/hs/abc"
                     None None None None].
Proof. repeat split. Qed.

(** ** Attributes that are not read *)

Lemma fold_left_Forall2 {A B B' : Type} (f : A -> B -> A) (g : A -> B' -> A)
    xs ys :
  Forall2 (fun x y => forall a, f a x = g a y) xs ys ->
  forall a, fold_left f xs a = fold_left g ys a.
Proof.
  induction 1 as [|x y xs ys E _ IH]; intros a; simpl; [reflexivity|].
  rewrite E. apply IH.
Qed.

Lemma forOf_Forall2 {A B B' : Type} (f : A -> B -> Result A)
    (g : A -> B' -> Result A) xs ys :
  Forall2 (fun x y => forall a, f a x = g a y) xs ys ->
  forall a, forOf f xs a = forOf g ys a.
Proof.
  induction 1 as [|x y xs ys E _ IH]; intros a; simpl; [reflexivity|].
  rewrite E. apply bind_ext, IH.
Qed.

Lemma includes_In array tag : includes array tag = true <-> In tag array.
Proof.
  unfold includes. rewrite existsb_exists. split.
  - intros [name [I E]]. apply String.eqb_eq in E. now subst.
  - intros I. exists tag. split; [exact I|apply String.eqb_refl].
Qed.

Lemma lookup_same attr attributes :
  forall attributes',
    sameAttributesButUnread attributes attributes' = true ->
    In attr readAttributes ->
    lookup attr attributes = lookup attr attributes'.
Proof.
  induction attributes as [|[name value] rest IH];
    intros [|[name' value'] rest'] S R; cbn [sameAttributesButUnread] in S;
    try discriminate.
  - reflexivity.
  - apply andb_true_iff in S as [S T]. apply andb_true_iff in S as [N V].
    apply String.eqb_eq in N. subst name'. cbn [lookup].
    destruct (String.eqb_spec name attr) as [->|_]; [|now apply IH].
    apply includes_In in R. rewrite R in V.
    apply String.eqb_eq in V. now subst.
Qed.

Lemma sameButUnread_inv kind children kind' children' :
  sameButUnread (mkNode kind children) (mkNode kind' children')
  = (sameKindButUnread kind kind' && forestSameButUnread children children')%bool.
Proof. reflexivity. Qed.

Lemma forestSameButUnread_Forall2 nodes :
  forall nodes',
    forestSameButUnread nodes nodes' = true ->
    Forall2 (fun node node' => sameButUnread node node' = true) nodes nodes'.
Proof.
  induction nodes as [|node rest IH]; intros [|node' rest'] S;
    simpl in S; try discriminate; constructor.
  - now apply andb_true_iff in S.
  - apply IH. now apply andb_true_iff in S.
Qed.

Lemma sameButUnread_children node node' :
  sameButUnread node node' = true ->
  Forall2 (fun child child' => sameButUnread child child' = true)
          (getChildNodes node) (getChildNodes node').
Proof.
  destruct node as [kind children], node' as [kind' children'].
  rewrite sameButUnread_inv. intros S. apply andb_true_iff in S as [_ S].
  now apply forestSameButUnread_Forall2.
Qed.

Lemma sameButUnread_observations node node' :
  sameButUnread node node' = true -> sameObservations node node'.
Proof.
  destruct node as [kind children], node' as [kind' children'].
  rewrite sameButUnread_inv. intros S. apply andb_true_iff in S as [S _].
  unfold sameObservations, isTextNode, isElementNode, getNodeText,
    getNodeElementName, getAttributeValue. cbn [nodeKind].
  destruct kind as [text|tag attributes|], kind' as [text'|tag' attributes'|];
    simpl in S; try discriminate.
  - apply String.eqb_eq in S. subst. repeat split.
  - apply andb_true_iff in S as [T A]. apply String.eqb_eq in T. subst.
    repeat split. intros attr R. now apply lookup_same.
  - repeat split.
Qed.

Lemma textContent_same node :
  forall node', sameButUnread node node' = true ->
                textContent node = textContent node'.
Proof.
  induction node as [kind children IH] using Node_forest_ind.
  intros [kind' children'] S.
  pose proof (sameButUnread_children _ _ S) as C. cbn [getChildNodes childNodes] in C.
  rewrite sameButUnread_inv in S. apply andb_true_iff in S as [K _].
  destruct kind as [text|tag attributes|], kind' as [text'|tag' attributes'|];
    simpl in K; try discriminate.
  - apply String.eqb_eq in K. now subst.
  - cbn [textContent]. f_equal.
    clear K. induction C as [|child child' rest rest' S _ IHC]; [reflexivity|].
    inversion IH as [|? ? here below]; subst. cbn [map]. f_equal; auto.
  - reflexivity.
Qed.

Lemma elementNameIs_same node node' name :
  sameObservations node node' ->
  elementNameIs node name = elementNameIs node' name.
Proof. intros (_ & _ & _ & G & _). unfold elementNameIs. now rewrite G. Qed.

Lemma parseCodeBlock_same node node' :
  Forall2 (fun child child' => sameButUnread child child' = true)
          (getChildNodes node) (getChildNodes node') ->
  parseCodeBlock node = parseCodeBlock node'.
Proof.
  intros C. unfold parseCodeBlock.
  destruct C as [|codeNode codeNode' rest rest' S _]; [reflexivity|].
  cbn [hd_error].
  pose proof (sameButUnread_observations _ _ S) as O.
  rewrite (elementNameIs_same _ _ "CODE" O).
  rewrite (textContent_same _ _ S).
  destruct O as (_ & _ & _ & _ & A). rewrite (A "class"); [reflexivity|].
  unfold readAttributes. simpl. tauto.
Qed.

Lemma parseImage_same mediaRepository node node' :
  sameObservations node node' ->
  parseImage mediaRepository node = parseImage mediaRepository node'.
Proof.
  intros (_ & _ & _ & _ & A). unfold parseImage.
  rewrite (A "src"), (A "width"), (A "height"), (A "alt"), (A "title");
    unfold readAttributes; simpl; tauto.
Qed.

Lemma parseLink_same parsePillLink node node' children :
  sameObservations node node' ->
  parseLink parsePillLink node children = parseLink parsePillLink node' children.
Proof.
  intros (_ & _ & _ & _ & A). unfold parseLink.
  rewrite (A "href"); [reflexivity|]. unfold readAttributes. simpl. tauto.
Qed.

Section Unread.

Variable linkify : string -> list (string * bool).
Variable parsePillLink : string -> option PillData.
Variable mediaRepository : option MediaRepository.

Lemma _parseTextParts_same node node' into :
  sameObservations node node' ->
  _parseTextParts linkify node into = _parseTextParts linkify node' into.
Proof.
  intros (T & _ & X & _). unfold _parseTextParts. now rewrite T, X.
Qed.

Lemma parseInlineNode_same node node' :
  sameObservations node node' ->
  parseInlineNodes linkify parsePillLink (getChildNodes node)
  = parseInlineNodes linkify parsePillLink (getChildNodes node') ->
  parseInlineNode linkify parsePillLink node
  = parseInlineNode linkify parsePillLink node'.
Proof.
  intros O C.
  pose proof (fun children => parseLink_same parsePillLink _ _ children O) as L.
  destruct O as (_ & K & _ & G & _).
  unfold parseInlineNode, parseInlineNodeF, parseInlineElementF.
  fold (parseInlineNodes linkify parsePillLink).
  rewrite K, G, C. destruct (isElementNode node'); [|reflexivity].
  destruct (getNodeElementName node') as [tag|]; [|reflexivity].
  now rewrite L.
Qed.

Lemma parseList_same node node' :
  sameObservations node node' ->
  Forall2 (fun child child' =>
             sameObservations child child'
             /\ parseAnyNodes linkify parsePillLink mediaRepository
                  (getChildNodes child)
                = parseAnyNodes linkify parsePillLink mediaRepository
                    (getChildNodes child'))
          (getChildNodes node) (getChildNodes node') ->
  parseList linkify parsePillLink mediaRepository node
  = parseList linkify parsePillLink mediaRepository node'.
Proof.
  intros O C. rewrite !parseList_eq.
  rewrite (elementNameIs_same _ _ "OL" O).
  destruct O as (_ & _ & _ & _ & A).
  rewrite (A "start") by (unfold readAttributes; simpl; tauto).
  unfold listItems.
  assert (E : map (fun item =>
                     parseAnyNodes linkify parsePillLink mediaRepository
                       (getChildNodes item))
                  (filter (fun child => elementNameIs child "LI")
                          (getChildNodes node))
              = map (fun item =>
                       parseAnyNodes linkify parsePillLink mediaRepository
                         (getChildNodes item))
                    (filter (fun child => elementNameIs child "LI")
                            (getChildNodes node'))).
  { induction C as [|child child' rest rest' [O E] _ IH]; [reflexivity|].
    cbn [filter]. rewrite (elementNameIs_same _ _ "LI" O).
    destruct (elementNameIs child' "LI"); [|exact IH].
    cbn [map]. now rewrite E, IH. }
  now rewrite E.
Qed.

Lemma parseBlockNode_same node node' :
  sameObservations node node' ->
  parseInlineNodes linkify parsePillLink (getChildNodes node)
  = parseInlineNodes linkify parsePillLink (getChildNodes node') ->
  parseAnyNodes linkify parsePillLink mediaRepository (getChildNodes node)
  = parseAnyNodes linkify parsePillLink mediaRepository (getChildNodes node') ->
  parseList linkify parsePillLink mediaRepository node
  = parseList linkify parsePillLink mediaRepository node' ->
  parseCodeBlock node = parseCodeBlock node' ->
  parseBlockNode linkify parsePillLink mediaRepository node
  = parseBlockNode linkify parsePillLink mediaRepository node'.
Proof.
  intros O CI CA L CB. pose proof (parseImage_same mediaRepository _ _ O) as I.
  destruct O as (_ & K & _ & G & _).
  unfold parseBlockNode, parseBlockNodeF, parseBlockElementF.
  fold (parseList linkify parsePillLink mediaRepository).
  fold (parseAnyNodes linkify parsePillLink mediaRepository).
  now rewrite K, G, CI, CA, L, CB, I.
Qed.

(** Two trees that differ in unread attribute values only take the loops of
    both contexts through the same turns. *)
Lemma turns_same node :
  forall node',
    sameButUnread node node' = true ->
    (forall into,
        _parseInlineNodes_turn linkify parsePillLink node into
        = _parseInlineNodes_turn linkify parsePillLink node' into)
    /\ (forall into,
           _parseAnyNodes_turn linkify parsePillLink mediaRepository node into
           = _parseAnyNodes_turn linkify parsePillLink mediaRepository node' into)
    /\ parseAnyNodes linkify parsePillLink mediaRepository (getChildNodes node)
       = parseAnyNodes linkify parsePillLink mediaRepository (getChildNodes node').
Proof.
  induction node as [kind children IH] using Node_forest_ind. intros node' S.
  pose proof (sameButUnread_observations _ _ S) as O.
  pose proof (sameButUnread_children _ _ S) as C.
  set (node := mkNode kind children) in *.
  change (Forall (fun child =>
            forall child',
              sameButUnread child child' = true ->
              (forall into,
                  _parseInlineNodes_turn linkify parsePillLink child into
                  = _parseInlineNodes_turn linkify parsePillLink child' into)
              /\ (forall into,
                     _parseAnyNodes_turn linkify parsePillLink mediaRepository
                       child into
                     = _parseAnyNodes_turn linkify parsePillLink mediaRepository
                         child' into)
              /\ parseAnyNodes linkify parsePillLink mediaRepository
                   (getChildNodes child)
                 = parseAnyNodes linkify parsePillLink mediaRepository
                     (getChildNodes child'))
            (getChildNodes node)) in IH.
  assert (LI : forall into,
             _parseInlineNodes linkify parsePillLink (getChildNodes node) into
             = _parseInlineNodes linkify parsePillLink (getChildNodes node') into).
  { apply fold_left_Forall2. clear - IH C.
    induction C as [|child child' rest rest' S _ IHC]; constructor;
      inversion IH as [|? ? here below]; subst; [|auto].
    intros a. now apply here. }
  assert (LA : forall into,
             _parseAnyNodes linkify parsePillLink mediaRepository
               (getChildNodes node) into
             = _parseAnyNodes linkify parsePillLink mediaRepository
                 (getChildNodes node') into).
  { apply forOf_Forall2. clear - IH C.
    induction C as [|child child' rest rest' S _ IHC]; constructor;
      inversion IH as [|? ? here below]; subst; [|auto].
    intros a. now apply here. }
  assert (inline : parseInlineNode linkify parsePillLink node
                   = parseInlineNode linkify parsePillLink node').
  { apply parseInlineNode_same; [exact O|apply LI]. }
  assert (block : parseBlockNode linkify parsePillLink mediaRepository node
                  = parseBlockNode linkify parsePillLink mediaRepository node').
  { apply parseBlockNode_same; [exact O|apply LI|apply LA| |].
    - apply parseList_same; [exact O|]. clear - IH C.
      induction C as [|child child' rest rest' S _ IHC]; constructor;
        inversion IH as [|? ? here below]; subst; [|auto].
      split; [now apply sameButUnread_observations|now apply here].
    - now apply parseCodeBlock_same. }
  split; [|split].
  - intros into. rewrite !_parseInlineNodes_turn_eq.
    rewrite (_parseTextParts_same _ _ into O), inline.
    destruct (_parseTextParts linkify node' into) as [[|] into1];
      [reflexivity|].
    destruct (parseInlineNode _ _ node'); [reflexivity|apply LI].
  - intros into. rewrite !_parseAnyNodes_turn_eq.
    rewrite (_parseTextParts_same _ _ into O), inline, block.
    destruct (_parseTextParts linkify node' into) as [[|] into1];
      [reflexivity|].
    apply bind_ext. intros [part|]; [reflexivity|apply LA].
  - apply LA.
Qed.

End Unread.

(** C2. Two input trees that are identical except in the values of
    attributes other than href, src, width, height, alt, title, class and
    start are deserialized to the same sequence of parts (or both throw), in
    mixed context as in inline context: the value of no other attribute
    reaches the output. *)
Theorem unread_attributes_do_not_matter :
  forall linkify parsePillLink mediaRepository nodes nodes',
    forestSameButUnread nodes nodes' = true ->
    parseAnyNodes linkify parsePillLink mediaRepository nodes
    = parseAnyNodes linkify parsePillLink mediaRepository nodes'
    /\ parseInlineNodes linkify parsePillLink nodes
       = parseInlineNodes linkify parsePillLink nodes'.
Proof.
  intros linkify parsePillLink mediaRepository nodes nodes' S.
  apply forestSameButUnread_Forall2 in S. split.
  - apply forOf_Forall2. eapply Forall2_impl; [|exact S].
    intros node node' E into.
    now apply (turns_same linkify parsePillLink mediaRepository node node' E).
  - apply fold_left_Forall2. eapply Forall2_impl; [|exact S].
    intros node node' E into.
    now apply (turns_same linkify parsePillLink mediaRepository node node' E).
Qed.

Lemma unread_attributes_do_not_matter_witness :
  Sample.parse
    [ElementNode "EM" [("onmouseover", "alert(1)"); ("class", "x")] [TextNode "Hello"]]
  = Sample.parse
      [ElementNode "EM" [("onmouseover", "fetch('//evil')"); ("class", "x")]
         [TextNode "Hello"]].
Proof.
  exact (proj1 (unread_attributes_do_not_matter Sample.linkify
                  Sample.parsePillLink None
                  [ElementNode "EM" [("onmouseover", "alert(1)"); ("class", "x")]
                     [TextNode "Hello"]]
                  [ElementNode "EM" [("onmouseover", "fetch('//evil')"); ("class", "x")]
                     [TextNode "Hello"]]
                  eq_refl)).
Defined.

(** * Further properties of the deserializer *)

(** ** Text nodes *)

Lemma linkifyCallback_map tokens :
  forall into, fold_left linkifyCallback tokens into = into ++ map tokenPart tokens.
Proof.
  induction tokens as [|[text isLink] rest IH]; intros into; simpl.
  - now rewrite app_nil_r.
  - rewrite IH. destruct isLink; now rewrite <- app_assoc.
Qed.

(** X1. A text node is, in either context, one part for each call the
    linkifier makes on its text, in the order of the calls: a Text part, or
    for a link a Link part to the matched text that holds it as its one
    Text part. Its child nodes, were there any, are not visited. *)
Theorem text_node_is_linkified :
  forall linkify parsePillLink mediaRepository node into,
    isTextNode node = true ->
    _parseTextParts linkify node into
    = (true, into ++ map tokenPart (linkify (getNodeText node)))
    /\ parseInlineNodes linkify parsePillLink [node]
       = map tokenPart (linkify (getNodeText node))
    /\ parseAnyNodes linkify parsePillLink mediaRepository [node]
       = Ok (map tokenPart (linkify (getNodeText node))).
Proof.
  intros linkify parsePillLink mediaRepository node into T.
  assert (P : forall acc,
             _parseTextParts linkify node acc
             = (true, acc ++ map tokenPart (linkify (getNodeText node)))).
  { intros acc. unfold _parseTextParts. rewrite T. cbn [negb].
    now rewrite linkifyCallback_map. }
  split; [apply P|]. split.
  - rewrite parseInlineNodes_one, _parseInlineNodes_turn_eq, P. reflexivity.
  - rewrite parseAnyNodes_one, _parseAnyNodes_turn_eq, P. reflexivity.
Qed.

Lemma text_node_is_linkified_witness :
  parseInlineNodes (fun text => [("see ", false); ("https://a.b", true)])
    Sample.parsePillLink [mkNode (TextKind "see https://a.b") [TextNode "lost"]]
  = [TextPart "see "; LinkPart (Some "https://a.b") [TextPart "https://a.b"]].
Proof.
  exact (proj1 (proj2 (text_node_is_linkified
                         (fun text => [("see ", false); ("https://a.b", true)])
                         Sample.parsePillLink None
                         (mkNode (TextKind "see https://a.b") [TextNode "lost"])
                         [] eq_refl))).
Defined.

(** ** The rules of the two dispatchers that take no attribute *)

Lemma header_tag_cases tag :
  isHeaderTag tag = true ->
  tag = "H1" \/ tag = "H2" \/ tag = "H3" \/ tag = "H4" \/ tag = "H5" \/ tag = "H6".
Proof.
  unfold isHeaderTag. intros H.
  repeat (apply orb_true_iff in H as [H|H]);
    apply String.eqb_eq in H; tauto.
Qed.

(** X2. A heading element, [H1] to [H6], is in block context one Header
    part whose level is the digit of its tag, from 1 to 6, never [NaN], and
    whose children are its child nodes classified in inline context; in
    inline context it gives way to its child nodes. *)
Theorem heading_element :
  forall linkify parsePillLink mediaRepository tag attributes children,
    isHeaderTag tag = true ->
    exists level,
      1 <= level <= 6
      /\ tag = ("H" ++ String (ascii_of_nat (48 + Z.to_nat level)) EmptyString)%string
      /\ parseAnyNodes linkify parsePillLink mediaRepository
           [mkNode (ElementKind tag attributes) children]
         = Ok [HeaderBlock (Num level)
                 (parseInlineNodes linkify parsePillLink children)]
      /\ parseInlineNodes linkify parsePillLink
           [mkNode (ElementKind tag attributes) children]
         = parseInlineNodes linkify parsePillLink children.
Proof.
  intros linkify parsePillLink mediaRepository tag attributes children H.
  destruct (header_tag_cases tag H) as [->|[->|[->|[->|[->| ->]]]]];
    [exists 1|exists 2|exists 3|exists 4|exists 5|exists 6];
    (split; [lia|]); (split; [reflexivity|]);
    (split; [apply block_part_alone; reflexivity
            |apply inline_fallback_alone; reflexivity]).
Qed.

Lemma heading_element_witness :
  exists level,
    1 <= level <= 6
    /\ Sample.parse
         [ElementNode "H3" [] [TextNode "Title"; ElementNode "P" [] [TextNode "!"]]]
       = Ok [HeaderBlock (Num level) [TextPart "Title"; TextPart "!"]].
Proof.
  destruct (heading_element Sample.linkify Sample.parsePillLink None "H3" []
              [TextNode "Title"; ElementNode "P" [] [TextNode "!"]] eq_refl)
    as [level [B [_ [P _]]]].
  exists level. split; [exact B|exact P].
Defined.

Lemma basicInline_cases tag :
  includes basicInline tag = true ->
  tag = "EM" \/ tag = "STRONG" \/ tag = "CODE" \/ tag = "DEL" \/ tag = "SPAN".
Proof.
  intros I. apply includes_In in I. simpl in I.
  repeat (destruct I as [I|I]; [symmetry in I; tauto|]). contradiction.
Qed.

Lemma basicBlock_cases tag :
  includes basicBlock tag = true -> tag = "DIV" \/ tag = "BLOCKQUOTE".
Proof.
  intros I. apply includes_In in I. simpl in I.
  repeat (destruct I as [I|I]; [symmetry in I; tauto|]). contradiction.
Qed.

(** X3. An element of [basicInline] is one Format part of its tag in either
    context, and in either context its child nodes are classified in inline
    context: below such an element no block rule applies, even when the
    element itself stands in block context. *)
Theorem basic_inline_element :
  forall linkify parsePillLink mediaRepository tag attributes children,
    includes basicInline tag = true ->
    parseInlineNodes linkify parsePillLink
      [mkNode (ElementKind tag attributes) children]
    = [FormatPart tag (parseInlineNodes linkify parsePillLink children)]
    /\ parseAnyNodes linkify parsePillLink mediaRepository
         [mkNode (ElementKind tag attributes) children]
       = Ok [FormatPart tag (parseInlineNodes linkify parsePillLink children)].
Proof.
  intros linkify parsePillLink mediaRepository tag attributes children I.
  rewrite parseInlineNodes_one, parseAnyNodes_one.
  apply (inline_part_is_pushed linkify parsePillLink mediaRepository _ _ []).
  destruct (basicInline_cases tag I) as [->|[->|[->|[->| ->]]]]; reflexivity.
Qed.

Lemma basic_inline_element_witness :
  Sample.parse
    [ElementNode "STRONG" [] [ElementNode "H1" [] [TextNode "a"]; ElementNode "HR" [] []]]
  = Ok [mkFormatPart "strong" [TextPart "a"]].
Proof.
  exact (proj2 (basic_inline_element Sample.linkify Sample.parsePillLink None
                  "STRONG" []
                  [ElementNode "H1" [] [TextNode "a"]; ElementNode "HR" [] []]
                  eq_refl)).
Defined.

Lemma parseBlockNode_basicBlock linkify parsePillLink mediaRepository tag
    attributes children :
  includes basicBlock tag = true ->
  parseBlockNode linkify parsePillLink mediaRepository
    (mkNode (ElementKind tag attributes) children)
  = (blocks <- parseAnyNodes linkify parsePillLink mediaRepository children ;;
     Ok (Some (FormatPart tag blocks))).
Proof.
  intros I. destruct (basicBlock_cases tag I) as [->| ->]; reflexivity.
Qed.

(** X4. An element of [basicBlock] is in block context one Format part of
    its tag whose children are its child nodes classified in mixed context
    (it throws when they do); in inline context it gives way to its child
    nodes, classified in inline context. *)
Theorem basic_block_element :
  forall linkify parsePillLink mediaRepository tag attributes children,
    includes basicBlock tag = true ->
    parseAnyNodes linkify parsePillLink mediaRepository
      [mkNode (ElementKind tag attributes) children]
    = (blocks <- parseAnyNodes linkify parsePillLink mediaRepository children ;;
       Ok [FormatPart tag blocks])
    /\ parseInlineNodes linkify parsePillLink
         [mkNode (ElementKind tag attributes) children]
       = parseInlineNodes linkify parsePillLink children.
Proof.
  intros linkify parsePillLink mediaRepository tag attributes children I.
  split.
  - rewrite parseAnyNodes_one, _parseAnyNodes_turn_eq.
    rewrite _parseTextParts_other by reflexivity.
    replace (parseInlineNode linkify parsePillLink
               (mkNode (ElementKind tag attributes) children))
      with (@None Part)
      by (destruct (basicBlock_cases tag I) as [->| ->]; reflexivity).
    rewrite (parseBlockNode_basicBlock _ _ _ _ _ _ I).
    destruct (parseAnyNodes _ _ _ children); reflexivity.
  - apply inline_fallback_alone; [reflexivity|].
    destruct (basicBlock_cases tag I) as [->| ->]; reflexivity.
Qed.

Lemma basic_block_element_witness :
  Sample.parse [ElementNode "BLOCKQUOTE" [] [ElementNode "P" [] [TextNode "a"]]]
  = Ok [mkFormatPart "blockquote" [mkFormatPart "p" [TextPart "a"]]]
  /\ parseInlineNodes Sample.linkify Sample.parsePillLink
       [ElementNode "DIV" [] [ElementNode "P" [] [TextNode "a"]]]
     = [TextPart "a"].
Proof.
  split.
  - exact (proj1 (basic_block_element Sample.linkify Sample.parsePillLink None
                    "BLOCKQUOTE" [] [ElementNode "P" [] [TextNode "a"]] eq_refl)).
  - exact (proj2 (basic_block_element Sample.linkify Sample.parsePillLink None
                    "DIV" [] [ElementNode "P" [] [TextNode "a"]] eq_refl)).
Defined.

(** X5. A [BR] element is a NewLine part in either context and an [HR]
    element a Rule part in block context, whatever their attributes and
    child nodes: the child nodes are dropped, not classified. In inline
    context an [HR] element gives way to its child nodes. *)
Theorem line_break_and_rule :
  forall linkify parsePillLink mediaRepository attributes children,
    parseInlineNodes linkify parsePillLink
      [mkNode (ElementKind "BR" attributes) children] = [NewLinePart]
    /\ parseAnyNodes linkify parsePillLink mediaRepository
         [mkNode (ElementKind "BR" attributes) children] = Ok [NewLinePart]
    /\ parseAnyNodes linkify parsePillLink mediaRepository
         [mkNode (ElementKind "HR" attributes) children] = Ok [RulePart]
    /\ parseInlineNodes linkify parsePillLink
         [mkNode (ElementKind "HR" attributes) children]
       = parseInlineNodes linkify parsePillLink children.
Proof.
  intros linkify parsePillLink mediaRepository attributes children.
  rewrite <- and_assoc. split.
  - rewrite parseInlineNodes_one, parseAnyNodes_one.
    now apply (inline_part_is_pushed linkify parsePillLink mediaRepository _ _ []).
  - split.
    + apply block_part_alone; reflexivity.
    + apply inline_fallback_alone; reflexivity.
Qed.

(** X6. A node that is neither a text node nor an element (a comment, say)
    is no part in either context; it gives way to its child nodes,
    classified under the context at hand, and never throws by itself. *)
Theorem other_node_is_transparent :
  forall linkify parsePillLink mediaRepository context node,
    isTextNode node = false ->
    isElementNode node = false ->
    classify linkify parsePillLink mediaRepository context [node]
    = classify linkify parsePillLink mediaRepository context (getChildNodes node).
Proof.
  intros linkify parsePillLink mediaRepository context node T K.
  assert (I : parseInlineNode linkify parsePillLink node = None).
  { unfold parseInlineNode, parseInlineNodeF. now rewrite K. }
  destruct context; cbn [classify].
  - f_equal. rewrite parseInlineNodes_one, _parseInlineNodes_turn_eq.
    now rewrite (_parseTextParts_other _ _ _ T), I.
  - rewrite parseAnyNodes_one, _parseAnyNodes_turn_eq.
    rewrite (_parseTextParts_other _ _ _ T), I.
    unfold parseBlockNode, parseBlockNodeF. now rewrite K.
Qed.

Lemma other_node_is_transparent_witness :
  Sample.parse [mkNode OtherKind [ElementNode "EM" [] [TextNode "a"]]]
  = Sample.parse [ElementNode "EM" [] [TextNode "a"]].
Proof.
  exact (other_node_is_transparent Sample.linkify Sample.parsePillLink None Mixed
           (mkNode OtherKind [ElementNode "EM" [] [TextNode "a"]])
           eq_refl eq_refl).
Defined.

(** ** The accumulator, and sequences of nodes *)

(** X7. [_parseInlineNodes] and [_parseAnyNodes] only push onto the array
    [into] they are given: what it held stays in front, unchanged and in
    order, and what is pushed does not depend on it; it is what
    [parseInlineNodes], [parseAnyNodes] return for the same nodes. *)
Theorem accumulator_is_only_pushed_onto :
  forall linkify parsePillLink mediaRepository nodes into,
    _parseInlineNodes linkify parsePillLink nodes into
    = into ++ parseInlineNodes linkify parsePillLink nodes
    /\ _parseAnyNodes linkify parsePillLink mediaRepository nodes into
       = (pushed <- parseAnyNodes linkify parsePillLink mediaRepository nodes ;;
          Ok (into ++ pushed)).
Proof.
  intros. split.
  - apply _parseInlineNodes_pushes.
  - apply _parseAnyNodes_pushes.
Qed.

(** X8. In either context the classification of a sequence of nodes is the
    concatenation of the classifications of its pieces: a node is
    classified independently of its siblings, in document order, and the
    first exception thrown is the one that comes out. *)
Theorem classify_is_sequential :
  forall linkify parsePillLink mediaRepository context nodes nodes',
    classify linkify parsePillLink mediaRepository context (nodes ++ nodes')
    = (parts <- classify linkify parsePillLink mediaRepository context nodes ;;
       parts' <- classify linkify parsePillLink mediaRepository context nodes' ;;
       Ok (parts ++ parts')).
Proof.
  intros linkify parsePillLink mediaRepository [|] nodes nodes'; cbn [classify].
  - cbn [bind]. f_equal. apply parseInlineNodes_app.
  - apply parseAnyNodes_app.
Qed.

(** ** What the output is made of *)

Lemma sequence_Ok {A : Type} (results : list (Result A)) :
  forall values,
    sequence results = Ok values ->
    Forall2 (fun result value => result = Ok value) results values.
Proof.
  induction results as [|[value|e] rest IH]; intros values E; simpl in E;
    try discriminate.
  - injection E as <-. constructor.
  - destruct (sequence rest) as [values'|e]; simpl in E; [|discriminate].
    injection E as <-. constructor; [reflexivity|now apply IH].
Qed.

Lemma orNumber_not_zero n d : d <> 0 -> JSNumber.orNumber n d <> 0.
Proof.
  intros D. rewrite orNumber_cases. destruct n as [|z]; [exact D|].
  destruct (Z.eqb_spec z 0); assumption.
Qed.

Lemma orNull_not_zero n : JSNumber.orNull n <> Some 0.
Proof.
  rewrite orNull_cases. destruct n as [|z]; [discriminate|].
  destruct (Z.eqb_spec z 0); congruence.
Qed.

Lemma header_level tag :
  isHeaderTag tag = true ->
  exists level,
    1 <= level <= 6
    /\ JSNumber.parseInt (JSString.at_index tag 1) = Num level.
Proof.
  intros H.
  destruct (header_tag_cases tag H) as [->|[->|[->|[->|[->| ->]]]]];
    [exists 1|exists 2|exists 3|exists 4|exists 5|exists 6];
    (split; [lia|reflexivity]).
Qed.

(** A property [holds] of the parts the deserializer can build holds of
    every part, at every depth, of what it returns. *)
Section Generated.

Variable linkify : string -> list (string * bool).
Variable parsePillLink : string -> option PillData.
Variable holds : Part -> bool.

Hypothesis holds_text : forall text, holds (TextPart text) = true.
Hypothesis holds_link : forall url inlines, holds (LinkPart url inlines) = true.
Hypothesis holds_pill :
  forall id href children,
    JSString.truthy id = true -> JSString.truthy href = true ->
    holds (PillPart id href children) = true.
Hypothesis holds_newline : holds NewLinePart = true.
Hypothesis holds_inline_format :
  forall tag children,
    includes basicInline tag = true -> holds (FormatPart tag children) = true.

Lemma tokens_generated tokens :
  forallb (everyPart holds) (map tokenPart tokens) = true.
Proof.
  induction tokens as [|[text [|]] rest IH]; simpl; [reflexivity| |].
  - now rewrite holds_link, holds_text, IH.
  - now rewrite holds_text, IH.
Qed.

Lemma parseLink_generated node children :
  forallb (everyPart holds) children = true ->
  everyPart holds (parseLink parsePillLink node children) = true.
Proof.
  intros C. unfold parseLink, pillDataOf, truthyUserId.
  destruct (getAttributeValue node "href") as [h|];
    [|cbn [everyPart]; now rewrite holds_link, C].
  destruct (JSString.truthy h) eqn:T;
    [|cbn [everyPart]; now rewrite holds_link, C].
  destruct (parsePillLink h) as [data|];
    [|cbn [everyPart]; now rewrite holds_link, C].
  destruct (userId data) as [id|];
    [|cbn [everyPart]; now rewrite holds_link, C].
  destruct (JSString.truthy id) eqn:I; cbn [everyPart].
  - now rewrite holds_pill, C.
  - now rewrite holds_link, C.
Qed.

Lemma parseInlineNode_generated node part :
  forallb (everyPart holds)
    (parseInlineNodes linkify parsePillLink (getChildNodes node)) = true ->
  parseInlineNode linkify parsePillLink node = Some part ->
  everyPart holds part = true.
Proof.
  intros C. unfold parseInlineNode, parseInlineNodeF, parseInlineElementF.
  fold (parseInlineNodes linkify parsePillLink).
  destruct (isElementNode node); [|discriminate].
  destruct (getNodeElementName node) as [tag|]; [|discriminate].
  destruct (String.eqb tag "A").
  { intros E. injection E as <-. now apply parseLink_generated. }
  destruct (String.eqb tag "BR").
  { intros E. injection E as <-. cbn [everyPart]. now rewrite holds_newline. }
  destruct (includes basicInline tag) eqn:I; cbn [negb]; [|discriminate].
  intros E. injection E as <-. unfold FormatPart. cbn [everyPart].
  rewrite C. fold (FormatPart tag
                     (parseInlineNodes linkify parsePillLink (getChildNodes node))).
  now rewrite holds_inline_format.
Qed.

Lemma _parseInlineNodes_turn_generated node :
  forallb (everyPart holds)
    (_parseInlineNodes_turn linkify parsePillLink node []) = true.
Proof.
  induction node as [kind children IH] using Node_forest_ind.
  assert (C : forallb (everyPart holds)
                (parseInlineNodes linkify parsePillLink children) = true).
  { clear - IH. induction IH as [|child rest here _ below]; [reflexivity|].
    rewrite parseInlineNodes_cons, forallb_app, here. exact below. }
  rewrite _parseInlineNodes_turn_eq.
  destruct (isTextNode (mkNode kind children)) eqn:T.
  - rewrite (_parseTextParts_text _ _ _ T), linkifyCallback_map.
    apply tokens_generated.
  - rewrite (_parseTextParts_other _ _ _ T).
    destruct (parseInlineNode _ _ _) as [part|] eqn:I.
    + cbn [app forallb].
      rewrite (parseInlineNode_generated (mkNode kind children) part C I).
      reflexivity.
    + exact C.
Qed.

Lemma parseInlineNodes_generated nodes :
  forallb (everyPart holds) (parseInlineNodes linkify parsePillLink nodes) = true.
Proof.
  induction nodes as [|node rest IH]; [reflexivity|].
  rewrite parseInlineNodes_cons, forallb_app, IH.
  now rewrite _parseInlineNodes_turn_generated.
Qed.

Variable mediaRepository : option MediaRepository.

Hypothesis holds_block_format :
  forall tag children,
    includes basicBlock tag = true \/ tag = "P" ->
    holds (FormatPart tag children) = true.
Hypothesis holds_rule : holds RulePart = true.
Hypothesis holds_code : forall language text, holds (CodeBlock language text) = true.
Hypothesis holds_header :
  forall level inlines,
    1 <= level <= 6 -> holds (HeaderBlock (Num level) inlines) = true.
Hypothesis holds_list :
  forall start items, start <> Some 0 -> holds (ListBlock start items) = true.
Hypothesis holds_image :
  forall src width height description name,
    JSString.truthy src = true -> width <> Some 0 -> height <> Some 0 ->
    holds (ImagePart src width height description name) = true.

Lemma parseList_generated node list :
  Forall (fun child =>
            forall item,
              parseAnyNodes linkify parsePillLink mediaRepository
                (getChildNodes child) = Ok item ->
              forallb (everyPart holds) item = true)
         (getChildNodes node) ->
  parseList linkify parsePillLink mediaRepository node = Ok list ->
  everyPart holds list = true.
Proof.
  intros C. rewrite parseList_eq.
  destruct (sequence _) as [items|e] eqn:S; [|discriminate].
  intros E. injection E as <-. cbn [everyPart].
  rewrite holds_list.
  - apply sequence_Ok in S. unfold listItems in S. cbn [andb].
    revert items S.
    induction C as [|child rest here _ IH]; intros items S; cbn [filter] in S.
    + inversion S. reflexivity.
    + destruct (elementNameIs child "LI"); [|now apply IH].
      cbn [map] in S. inversion S as [|? item ? items' E S']; subst.
      cbn [forallb]. rewrite (here item E). now apply IH.
  - destruct (elementNameIs node "OL"); [|discriminate].
    intros E. injection E as E. revert E. now apply orNumber_not_zero.
Qed.

Lemma parseImage_generated node part :
  parseImage mediaRepository node = Ok (Some part) ->
  everyPart holds part = true.
Proof.
  unfold parseImage. destruct mediaRepository as [repository|]; [|discriminate].
  destruct (mxcUrl repository _) as [url|]; [|discriminate].
  destruct (JSString.truthy url) eqn:T; cbn [negb]; [|discriminate].
  intros E. injection E as <-. cbn [everyPart].
  rewrite holds_image; auto using orNull_not_zero.
Qed.

Lemma parseBlockNode_generated node part :
  (forall blocks,
      parseAnyNodes linkify parsePillLink mediaRepository
        (getChildNodes node) = Ok blocks ->
      forallb (everyPart holds) blocks = true) ->
  Forall (fun child =>
            forall item,
              parseAnyNodes linkify parsePillLink mediaRepository
                (getChildNodes child) = Ok item ->
              forallb (everyPart holds) item = true)
         (getChildNodes node) ->
  parseBlockNode linkify parsePillLink mediaRepository node = Ok (Some part) ->
  everyPart holds part = true.
Proof.
  intros B C.
  pose proof (parseInlineNodes_generated (getChildNodes node)) as I.
  unfold parseBlockNode, parseBlockNodeF, parseBlockElementF.
  fold (parseList linkify parsePillLink mediaRepository).
  fold (parseAnyNodes linkify parsePillLink mediaRepository).
  destruct (isElementNode node); [|discriminate].
  destruct (getNodeElementName node) as [tag|]; [|discriminate].
  destruct (isHeaderTag tag) eqn:H.
  { intros E. injection E as <-. cbn [everyPart]. rewrite I.
    destruct (header_level tag H) as [level [L ->]].
    now rewrite holds_header. }
  destruct (String.eqb tag "UL" || String.eqb tag "OL").
  { destruct (parseList _ _ _ node) as [list|e] eqn:L; [|discriminate].
    intros E. injection E as <-. now apply (parseList_generated node). }
  destruct (String.eqb tag "PRE").
  { unfold parseCodeBlock. destruct (hd_error _) as [codeNode|]; [|discriminate].
    destruct (negb _); [discriminate|].
    intros E. injection E as <-. cbn [everyPart]. now rewrite holds_code. }
  destruct (String.eqb tag "HR").
  { intros E. injection E as <-. cbn [everyPart]. now rewrite holds_rule. }
  destruct (String.eqb tag "IMG"); [apply parseImage_generated|].
  destruct (String.eqb_spec tag "P") as [->|_].
  { intros E. injection E as <-. unfold FormatPart. cbn [everyPart].
    rewrite I.
    fold (FormatPart "P"
            (parseInlineNodes linkify parsePillLink (getChildNodes node))).
    rewrite holds_block_format; auto. }
  destruct (includes basicBlock tag) eqn:K; cbn [negb]; [|discriminate].
  destruct (parseAnyNodes _ _ _ (getChildNodes node)) as [blocks|e] eqn:A;
    [|discriminate].
  intros E. injection E as <-. unfold FormatPart. cbn [everyPart].
  rewrite (B blocks eq_refl). fold (FormatPart tag blocks).
  rewrite holds_block_format; auto.
Qed.

Lemma parseAnyNodes_generated_by_turns nodes :
  Forall (fun node =>
            forall pushed,
              _parseAnyNodes_turn linkify parsePillLink mediaRepository node []
              = Ok pushed ->
              forallb (everyPart holds) pushed = true)
         nodes ->
  forall parts,
    parseAnyNodes linkify parsePillLink mediaRepository nodes = Ok parts ->
    forallb (everyPart holds) parts = true.
Proof.
  induction 1 as [|node rest here _ IH]; intros parts E.
  - injection E as <-. reflexivity.
  - rewrite parseAnyNodes_cons in E.
    destruct (_parseAnyNodes_turn _ _ _ node []) as [pushed|e]; [|discriminate].
    destruct (parseAnyNodes _ _ _ rest) as [after|e]; [|discriminate].
    injection E as <-. rewrite forallb_app, (here pushed eq_refl).
    now apply IH.
Qed.

Lemma _parseAnyNodes_turn_generated node :
  (forall pushed,
      _parseAnyNodes_turn linkify parsePillLink mediaRepository node []
      = Ok pushed ->
      forallb (everyPart holds) pushed = true)
  /\ forall parts,
       parseAnyNodes linkify parsePillLink mediaRepository
         (getChildNodes node) = Ok parts ->
       forallb (everyPart holds) parts = true.
Proof.
  induction node as [kind children IH] using Node_forest_ind.
  assert (B : forall parts,
             parseAnyNodes linkify parsePillLink mediaRepository children
             = Ok parts ->
             forallb (everyPart holds) parts = true).
  { apply parseAnyNodes_generated_by_turns.
    eapply Forall_impl; [|exact IH]. intros child [turn _]. exact turn. }
  split; [|exact B]. intros pushed.
  rewrite _parseAnyNodes_turn_eq.
  destruct (isTextNode (mkNode kind children)) eqn:T.
  - rewrite (_parseTextParts_text _ _ _ T), linkifyCallback_map.
    intros E. injection E as <-. apply tokens_generated.
  - rewrite (_parseTextParts_other _ _ _ T).
    destruct (parseInlineNode _ _ _) as [inline|] eqn:I.
    + intros E. injection E as <-. cbn [app forallb].
      rewrite (parseInlineNode_generated (mkNode kind children) inline
                 (parseInlineNodes_generated children) I).
      reflexivity.
    + destruct (parseBlockNode _ _ _ _) as [[block|]|e] eqn:K;
        cbn [bind]; [| |discriminate].
      * intros E. injection E as <-. cbn [app forallb].
        rewrite (parseBlockNode_generated (mkNode kind children) block); auto.
        eapply Forall_impl; [|exact IH]. intros child [_ below]. exact below.
      * apply B.
Qed.

Lemma parseAnyNodes_generated nodes parts :
  parseAnyNodes linkify parsePillLink mediaRepository nodes = Ok parts ->
  forallb (everyPart holds) parts = true.
Proof.
  apply parseAnyNodes_generated_by_turns, Forall_forall. intros node _.
  apply _parseAnyNodes_turn_generated.
Qed.

End Generated.

Lemma inlineLevel_format tag children :
  includes basicInline tag = true -> inlineLevel (FormatPart tag children) = true.
Proof.
  intros I. destruct (basicInline_cases tag I) as [->|[->|[->|[->| ->]]]];
    reflexivity.
Qed.

Lemma allowedFormat_inline tag children :
  includes basicInline tag = true -> allowedFormat (FormatPart tag children) = true.
Proof.
  intros I. destruct (basicInline_cases tag I) as [->|[->|[->|[->| ->]]]];
    reflexivity.
Qed.

Lemma allowedFormat_block tag children :
  includes basicBlock tag = true \/ tag = "P" ->
  allowedFormat (FormatPart tag children) = true.
Proof.
  intros [I| ->]; [|reflexivity].
  destruct (basicBlock_cases tag I) as [->| ->]; reflexivity.
Qed.

(** X9. Inline context yields parts of inline level only, at every depth:
    Text, NewLine, Link and Pill parts and Format parts of the tags of
    [basicInline]; never a Header, List, CodeBlock, Rule or Image part, nor
    a paragraph, div or blockquote Format, whatever the input. *)
Theorem inline_context_yields_inline_level :
  forall linkify parsePillLink nodes,
    forallb (everyPart inlineLevel) (parseInlineNodes linkify parsePillLink nodes)
    = true.
Proof.
  intros linkify parsePillLink nodes.
  apply parseInlineNodes_generated; auto using inlineLevel_format.
Qed.

(** X10. Whatever the tags of the input, every Format part of what the
    deserializer returns, at every depth, has one of eight tags: those of
    [basicInline], those of [basicBlock], and the paragraph. *)
Theorem format_tags_are_allowed :
  forall linkify parsePillLink mediaRepository nodes parts,
    parseAnyNodes linkify parsePillLink mediaRepository nodes = Ok parts ->
    forallb (everyPart allowedFormat) parts = true.
Proof.
  intros linkify parsePillLink mediaRepository nodes parts.
  apply parseAnyNodes_generated;
    auto using allowedFormat_inline, allowedFormat_block.
Qed.

Lemma format_tags_are_allowed_witness :
  forallb (everyPart allowedFormat)
    [mkFormatPart "div"
       [ListBlock None [[mkFormatPart "p" [mkFormatPart "em" [TextPart "a"]]]]]]
  = true.
Proof.
  exact (format_tags_are_allowed Sample.linkify Sample.parsePillLink None
           [ElementNode "DIV" [("style", "x")]
              [ElementNode "UL" []
                 [ElementNode "LI" []
                    [ElementNode "P" []
                       [ElementNode "FONT" []
                          [ElementNode "EM" [] [TextNode "a"]]]]]]]
           _ eq_refl).
Defined.

Lemma soundNumbers_inline_format tag children :
  includes basicInline tag = true -> soundNumbers (FormatPart tag children) = true.
Proof. reflexivity. Qed.

Lemma soundNumbers_header level inlines :
  1 <= level <= 6 -> soundNumbers (HeaderBlock (Num level) inlines) = true.
Proof.
  intros [L U]. cbn [soundNumbers].
  apply andb_true_iff. split; now apply Z.leb_le.
Qed.

Lemma soundNumbers_list start items :
  start <> Some 0 -> soundNumbers (ListBlock start items) = true.
Proof.
  intros N. destruct start as [z|]; [|reflexivity]. cbn [soundNumbers].
  destruct (Z.eqb_spec z 0); [congruence|reflexivity].
Qed.

Lemma soundNumbers_image src width height description name :
  JSString.truthy src = true -> width <> Some 0 -> height <> Some 0 ->
  soundNumbers (ImagePart src width height description name) = true.
Proof.
  intros _ W H. cbn [soundNumbers].
  destruct width as [w|], height as [h|]; cbn [andb]; try reflexivity;
    repeat match goal with
           | |- context [?z =? 0] => destruct (Z.eqb_spec z 0); [congruence|]
           end; reflexivity.
Qed.

(** X11. The numbers of the parts returned are meaningful at every depth:
    the level of a Header part is an integer from 1 to 6, and neither the
    start of a List part nor the width or height of an Image part is ever
    zero (or [NaN]). *)
Theorem numbers_are_sound :
  forall linkify parsePillLink mediaRepository nodes parts,
    parseAnyNodes linkify parsePillLink mediaRepository nodes = Ok parts ->
    forallb (everyPart soundNumbers) parts = true.
Proof.
  intros linkify parsePillLink mediaRepository nodes parts.
  apply parseAnyNodes_generated;
    auto using soundNumbers_header, soundNumbers_list, soundNumbers_image.
Qed.

Lemma numbers_are_sound_witness :
  forallb (everyPart soundNumbers)
    [HeaderBlock (Num 2) [TextPart "t"];
     ListBlock (Some 1) [[ImagePart "https://hs/_matrix/media/r0/download/hs/abc"
                            None (Some (-4)) None None]]]
  = true.
Proof.
  exact (numbers_are_sound Sample.linkify Sample.parsePillLink
           (Some Sample.repository)
           [ElementNode "H2" [] [TextNode "t"];
            ElementNode "OL" [("start", "-0")]
              [ElementNode "LI" []
                 [ElementNode "IMG" [("src", "mxc://hs/abc"); ("width", "0x0");
                                      ("height", "-4")] []]]]
           _ eq_refl).
Defined.

Lemma soundStrings_pill id href children :
  JSString.truthy id = true -> JSString.truthy href = true ->
  soundStrings (PillPart id href children) = true.
Proof. intros I H. cbn [soundStrings]. now rewrite I, H. Qed.

Lemma soundStrings_image src width height description name :
  JSString.truthy src = true -> width <> Some 0 -> height <> Some 0 ->
  soundStrings (ImagePart src width height description name) = true.
Proof. intros S _ _. exact S. Qed.

(** X12. At every depth of what is returned, a Pill part has a user id and
    an href that are not empty, and an Image part a URL that is not empty:
    an anchor without href is never a Pill, and an image that the media
    repository resolves to nothing is never an Image part. *)
Theorem pills_and_images_are_identified :
  forall linkify parsePillLink mediaRepository nodes parts,
    parseAnyNodes linkify parsePillLink mediaRepository nodes = Ok parts ->
    forallb (everyPart soundStrings) parts = true.
Proof.
  intros linkify parsePillLink mediaRepository nodes parts.
  apply parseAnyNodes_generated;
    auto using soundStrings_pill, soundStrings_image.
Qed.

Lemma pills_and_images_are_identified_witness :
  forallb (everyPart soundStrings)
    [mkFormatPart "p"
       [LinkPart (Some "") [PillPart "@a:hs" "https://matrix.to/#/@a:hs" [TextPart "A"]]]]
  = true.
Proof.
  exact (pills_and_images_are_identified
           Sample.linkify
           (fun link => if JSString.startsWith link "https://matrix.to/#/"
                        then Sample.parsePillLink link
                        else Some (mkPillData (Some "")))
           (Some (mkMediaRepository (fun _ => Some "")))
           [ElementNode "P" []
              [ElementNode "A" [("href", "")]
                 [ElementNode "A" [("href", "https://matrix.to/#/@a:hs")]
                    [TextNode "A"; ElementNode "IMG" [("src", "x")] []]]]]
           _ eq_refl).
Defined.

(** ** The media repository *)

Lemma forOf_monotone {A B : Type} (f g : A -> B -> Result A) xs :
  Forall (fun x => forall a a', f a x = Ok a' -> g a x = Ok a') xs ->
  forall a a', forOf f xs a = Ok a' -> forOf g xs a = Ok a'.
Proof.
  induction 1 as [|x xs here _ IH]; intros a a' E; simpl in *; [exact E|].
  destruct (f a x) as [b|e] eqn:F; [|discriminate].
  rewrite (here a b F). simpl in *. now apply IH.
Qed.

Section WithoutRepository.

Variable linkify : string -> list (string * bool).
Variable parsePillLink : string -> option PillData.
Variable mediaRepository : option MediaRepository.

Lemma parseList_without_repository node list :
  Forall (fun child =>
            forall item,
              parseAnyNodes linkify parsePillLink None (getChildNodes child)
              = Ok item ->
              parseAnyNodes linkify parsePillLink mediaRepository
                (getChildNodes child) = Ok item)
         (getChildNodes node) ->
  parseList linkify parsePillLink None node = Ok list ->
  parseList linkify parsePillLink mediaRepository node = Ok list.
Proof.
  intros C. rewrite !parseList_eq. unfold listItems.
  destruct (sequence _) as [items|e] eqn:S; [|discriminate].
  intros E. injection E as <-.
  enough (sequence
            (map (fun item =>
                    parseAnyNodes linkify parsePillLink mediaRepository
                      (getChildNodes item))
                 (filter (fun child => elementNameIs child "LI")
                         (getChildNodes node)))
          = Ok items) as -> by reflexivity.
  revert items S.
  induction C as [|child rest here _ IH]; intros items S; cbn [filter] in *;
    [exact S|].
  destruct (elementNameIs child "LI"); [|now apply IH].
  cbn [map sequence] in *.
  destruct (parseAnyNodes linkify parsePillLink None (getChildNodes child))
    as [item|e] eqn:I; [|discriminate].
  rewrite (here item eq_refl). cbn [bind] in *.
  destruct (sequence _) as [items'|e] eqn:S' in S; [|discriminate].
  rewrite (IH items' S'). exact S.
Qed.

Lemma parseBlockNode_without_repository node block :
  (forall blocks,
      parseAnyNodes linkify parsePillLink None (getChildNodes node) = Ok blocks ->
      parseAnyNodes linkify parsePillLink mediaRepository (getChildNodes node)
      = Ok blocks) ->
  Forall (fun child =>
            forall item,
              parseAnyNodes linkify parsePillLink None (getChildNodes child)
              = Ok item ->
              parseAnyNodes linkify parsePillLink mediaRepository
                (getChildNodes child) = Ok item)
         (getChildNodes node) ->
  parseBlockNode linkify parsePillLink None node = Ok block ->
  parseBlockNode linkify parsePillLink mediaRepository node = Ok block.
Proof.
  intros B C.
  unfold parseBlockNode, parseBlockNodeF, parseBlockElementF.
  fold (parseList linkify parsePillLink None).
  fold (parseList linkify parsePillLink mediaRepository).
  fold (parseAnyNodes linkify parsePillLink None).
  fold (parseAnyNodes linkify parsePillLink mediaRepository).
  destruct (isElementNode node); [|trivial].
  destruct (getNodeElementName node) as [tag|]; [|trivial].
  destruct (isHeaderTag tag); [trivial|].
  destruct (String.eqb tag "UL" || String.eqb tag "OL").
  { destruct (parseList linkify parsePillLink None node) as [list|e] eqn:L;
      [|discriminate].
    now rewrite (parseList_without_repository node list C L). }
  destruct (String.eqb tag "PRE"); [trivial|].
  destruct (String.eqb tag "HR"); [trivial|].
  destruct (String.eqb tag "IMG"); [discriminate|].
  destruct (String.eqb tag "P"); [trivial|].
  destruct (negb (includes basicBlock tag)); [trivial|].
  destruct (parseAnyNodes linkify parsePillLink None (getChildNodes node))
    as [blocks|e] eqn:A; [|discriminate].
  now rewrite (B blocks eq_refl).
Qed.

Lemma _parseAnyNodes_turn_without_repository node :
  (forall into into',
      _parseAnyNodes_turn linkify parsePillLink None node into = Ok into' ->
      _parseAnyNodes_turn linkify parsePillLink mediaRepository node into
      = Ok into')
  /\ forall parts,
       parseAnyNodes linkify parsePillLink None (getChildNodes node) = Ok parts ->
       parseAnyNodes linkify parsePillLink mediaRepository (getChildNodes node)
       = Ok parts.
Proof.
  induction node as [kind children IH] using Node_forest_ind.
  assert (L : forall into into',
             _parseAnyNodes linkify parsePillLink None children into = Ok into' ->
             _parseAnyNodes linkify parsePillLink mediaRepository children into
             = Ok into').
  { apply forOf_monotone. eapply Forall_impl; [|exact IH].
    intros child [turn _]. exact turn. }
  split; [|apply L]. intros into into'.
  rewrite !_parseAnyNodes_turn_eq.
  destruct (_parseTextParts linkify _ into) as [[|] into1]; [trivial|].
  destruct (parseInlineNode _ _ _) as [inline|]; [trivial|].
  destruct (parseBlockNode linkify parsePillLink None _) as [block|e] eqn:K;
    [|discriminate].
  rewrite (parseBlockNode_without_repository (mkNode kind children) block);
    auto.
  - destruct block; cbn [bind]; [trivial|apply L].
  - apply L.
  - eapply Forall_impl; [|exact IH]. intros child [_ below]. exact below.
Qed.

End WithoutRepository.

(** X13. The media repository is consulted for nothing but the images in
    block context: when deserialization without a media repository returns
    (as in the tests, which pass [null]), it returns the same parts with
    any media repository. *)
Theorem repository_matters_for_images_only :
  forall linkify parsePillLink mediaRepository nodes parts,
    parseAnyNodes linkify parsePillLink None nodes = Ok parts ->
    parseAnyNodes linkify parsePillLink mediaRepository nodes = Ok parts.
Proof.
  intros linkify parsePillLink mediaRepository nodes.
  apply forOf_monotone, Forall_forall. intros node _.
  apply _parseAnyNodes_turn_without_repository.
Qed.

Lemma repository_matters_for_images_only_witness :
  Sample.parseWithMedia
    [ElementNode "SPAN" [] [ElementNode "IMG" [("src", "mxc://hs/abc")] []];
     ElementNode "UL" [] [ElementNode "LI" [] [TextNode "a"]]]
  = Ok [mkFormatPart "span" []; ListBlock None [[TextPart "a"]]].
Proof.
  exact (repository_matters_for_images_only Sample.linkify Sample.parsePillLink
           (Some Sample.repository)
           [ElementNode "SPAN" [] [ElementNode "IMG" [("src", "mxc://hs/abc")] []];
            ElementNode "UL" [] [ElementNode "LI" [] [TextNode "a"]]]
           _ eq_refl).
Defined.

(** ** Inline content in block context *)

Lemma forOf_never_throwing {A B : Type} (f : A -> B -> Result A)
    (g : A -> B -> A) xs :
  Forall (fun x => forall a, f a x = Ok (g a x)) xs ->
  forall a, forOf f xs a = Ok (fold_left g xs a).
Proof.
  induction 1 as [|x xs here _ IH]; intros a; simpl; [reflexivity|].
  rewrite here. simpl. apply IH.
Qed.

Lemma forallb_Forall_impl {A : Type} (f : A -> bool) (P : A -> Prop) xs :
  Forall (fun x => f x = true -> P x) xs ->
  forallb f xs = true -> Forall P xs.
Proof.
  induction 1 as [|x xs here _ IH]; intros E; constructor;
    simpl in E; apply andb_true_iff in E as [E1 E2]; auto.
Qed.

Lemma parseBlockNode_noBlockRule linkify parsePillLink mediaRepository node :
  noBlockRule node = true ->
  parseBlockNode linkify parsePillLink mediaRepository node = Ok None.
Proof.
  destruct node as [[text|tag attributes|] children]; try reflexivity.
  unfold noBlockRule. cbn [getNodeElementName nodeKind]. intros R.
  apply parseBlockNode_no_rule. now destruct (blockRule tag).
Qed.

Lemma _parseAnyNodes_turn_noBlockRule linkify parsePillLink mediaRepository node :
  everyNode noBlockRule node = true ->
  forall into,
    _parseAnyNodes_turn linkify parsePillLink mediaRepository node into
    = Ok (_parseInlineNodes_turn linkify parsePillLink node into).
Proof.
  induction node as [kind children IH] using Node_forest_ind.
  cbn [everyNode]. intros E. apply andb_true_iff in E as [R C].
  pose proof (forallb_Forall_impl _ _ _ IH C) as below. clear IH C.
  intros into. rewrite _parseAnyNodes_turn_eq, _parseInlineNodes_turn_eq.
  destruct (_parseTextParts linkify _ into) as [[|] into1]; [reflexivity|].
  destruct (parseInlineNode _ _ _) as [inline|]; [reflexivity|].
  rewrite (parseBlockNode_noBlockRule _ _ _ _ R). cbn [bind].
  now apply forOf_never_throwing.
Qed.

(** X14. Where no element has a block rule (no heading, list, [PRE], [HR],
    [IMG], [P], [DIV] or [BLOCKQUOTE] at any depth), block context is inline
    context: deserialization returns what [parseInlineNodes] returns, and
    does not throw even without a media repository. *)
Theorem inline_content_in_block_context :
  forall linkify parsePillLink mediaRepository nodes,
    forallb (everyNode noBlockRule) nodes = true ->
    parseAnyNodes linkify parsePillLink mediaRepository nodes
    = Ok (parseInlineNodes linkify parsePillLink nodes).
Proof.
  intros linkify parsePillLink mediaRepository nodes E.
  apply forOf_never_throwing.
  apply (forallb_Forall_impl (everyNode noBlockRule)); [|exact E].
  apply Forall_forall. intros node _ N into.
  now apply _parseAnyNodes_turn_noBlockRule.
Qed.

Lemma inline_content_in_block_context_witness :
  Sample.parse
    [TextNode "Hi "; ElementNode "EM" [] [ElementNode "FONT" [] [TextNode "x"]];
     CommentNode; ElementNode "BR" [] []]
  = Ok [TextPart "Hi "; mkFormatPart "em" [TextPart "x"]; NewLinePart].
Proof.
  exact (inline_content_in_block_context Sample.linkify Sample.parsePillLink None
           [TextNode "Hi "; ElementNode "EM" [] [ElementNode "FONT" [] [TextNode "x"]];
            CommentNode; ElementNode "BR" [] []]
           eq_refl).
Defined.

(** ** Lists, once more *)

Lemma filter_filter {A : Type} (f : A -> bool) xs :
  filter f (filter f xs) = filter f xs.
Proof.
  induction xs as [|x xs IH]; [reflexivity|]. cbn [filter].
  destruct (f x) eqn:F; [|exact IH]. cbn [filter]. now rewrite F, IH.
Qed.

(** X15. [parseList] depends on the child nodes of the list element
    through the [LI] elements among them only: every other child node, text
    included, can be removed without changing the List part, and is never
    classified. A list element without [LI] child is an empty List part,
    even without a media repository. *)
Theorem list_ignores_other_children :
  forall linkify parsePillLink mediaRepository kind children,
    parseList linkify parsePillLink mediaRepository (mkNode kind children)
    = parseList linkify parsePillLink mediaRepository
        (mkNode kind (filter (fun child => elementNameIs child "LI") children))
    /\ (filter (fun child => elementNameIs child "LI") children = [] ->
        exists start,
          parseList linkify parsePillLink mediaRepository (mkNode kind children)
          = Ok (ListBlock start [])).
Proof.
  intros linkify parsePillLink mediaRepository kind children.
  rewrite !parseList_eq. unfold listItems. cbn [getChildNodes childNodes].
  split.
  - now rewrite filter_filter.
  - intros ->. eexists. reflexivity.
Qed.

Lemma list_ignores_other_children_witness :
  exists start,
    parseList Sample.linkify Sample.parsePillLink None
      (ElementNode "UL" [] [TextNode "a"; ElementNode "IMG" [("src", "mxc://hs/abc")] []])
    = Ok (ListBlock start []).
Proof.
  exact (proj2 (list_ignores_other_children Sample.linkify Sample.parsePillLink
                  None (ElementKind "UL" [])
                  [TextNode "a"; ElementNode "IMG" [("src", "mxc://hs/abc")] []])
               eq_refl).
Defined.

(** ** The language of a code block *)

Lemma split_without_separator sep s :
  Forall (fun piece => containsChar sep piece = false) (JSString.split sep s).
Proof.
  induction s as [|c s IH]; cbn [JSString.split].
  - now constructor.
  - destruct (Ascii.eqb c sep) eqn:E; [now constructor|].
    destruct (JSString.split sep s) as [|piece pieces].
    + constructor; [|constructor]. cbn [containsChar]. now rewrite E.
    + inversion IH as [|? ? here below]; subst. constructor; [|exact below].
      cbn [containsChar]. now rewrite E, here.
Qed.

Lemma languageOf_plain clnames :
  Forall (fun clname => containsChar " " clname = false) clnames ->
  JSString.startsWith (languageOf clnames) "_" = false
  /\ containsChar " " (languageOf clnames) = false.
Proof.
  induction 1 as [|clname rest here _ IH]; cbn [languageOf];
    [split; reflexivity|].
  unfold JSString.startsWith in *.
  destruct (String.prefix "language-" clname) eqn:P; cbn [andb]; [|exact IH].
  destruct (prefix_split _ _ P) as [label ->].
  change "language-_" with ("language-" ++ "_")%string.
  rewrite prefix_append.
  destruct (String.prefix "_" label) eqn:U; cbn [negb]; [exact IH|].
  change (JSString.substring 9 ("language-" ++ label)) with label.
  split; [exact U|]. exact here.
Qed.

(** X16. The language of a CodeBlock part never begins with an underscore
    and never holds a space, whatever the class attribute of the [CODE]
    element; it is empty when no class name qualifies. *)
Theorem code_block_language_is_plain :
  forall node language text,
    parseCodeBlock node = Some (CodeBlock language text) ->
    JSString.startsWith language "_" = false
    /\ containsChar " " language = false.
Proof.
  intros node language text. unfold parseCodeBlock.
  destruct (hd_error (getChildNodes node)) as [codeNode|]; [|discriminate].
  destruct (negb (elementNameIs codeNode "CODE")); [discriminate|].
  intros E. injection E as <- _.
  apply languageOf_plain, split_without_separator.
Qed.

Lemma code_block_language_is_plain_witness :
  JSString.startsWith "c++" "_" = false /\ containsChar " " "c++" = false.
Proof.
  exact (code_block_language_is_plain
           (ElementNode "PRE" []
              [ElementNode "CODE" [("class", "language-_c language-c++ language-d")]
                 [TextNode "int x;"]])
           "c++" "int x;" eq_refl).
Defined.

(** ** Tag names are matched in upper case *)

Lemma lower_case_has_no_rule tag :
  JSString.toLowerCase tag = tag ->
  inlineRule tag = false /\ blockRule tag = false.
Proof.
  intros L.
  unfold inlineRule, blockRule, isHeaderTag, includes, basicInline, basicBlock.
  cbn [existsb].
  repeat match goal with
         | |- context [String.eqb tag ?name] =>
             destruct (String.eqb_spec tag name) as [->|_];
             [vm_compute in L; discriminate L|]
         end.
  split; reflexivity.
Qed.

(** X17. The dispatchers match tag names in upper case only: an element
    whose tag name is written in lower case ("em", "p", "img", ...) has no
    rule in either context, and gives way to its child nodes like an
    unknown element. *)
Theorem lower_case_tag_is_unknown :
  forall linkify parsePillLink mediaRepository context tag attributes children,
    JSString.toLowerCase tag = tag ->
    ruleApplies context tag = false
    /\ classify linkify parsePillLink mediaRepository context
         [mkNode (ElementKind tag attributes) children]
       = classify linkify parsePillLink mediaRepository context children.
Proof.
  intros linkify parsePillLink mediaRepository context tag attributes children L.
  destruct (lower_case_has_no_rule tag L) as [I B].
  destruct context; cbn [ruleApplies classify].
  - split; [exact I|]. f_equal.
    apply inline_fallback_alone; [reflexivity|].
    now apply parseInlineNode_no_rule.
  - split; [now rewrite I, B|].
    apply mixed_fallback_alone; [reflexivity| |].
    + now apply parseInlineNode_no_rule.
    + now apply parseBlockNode_no_rule.
Qed.

Lemma lower_case_tag_is_unknown_witness :
  Sample.parse [mkNode (ElementKind "em" []) [TextNode "a"]] = Ok [TextPart "a"].
Proof.
  exact (proj2 (lower_case_tag_is_unknown Sample.linkify Sample.parsePillLink
                  None Mixed "em" [] [TextNode "a"] eq_refl)).
Defined.

(** ** Text is kept in inline context *)

Lemma append_empty_r (s : string) : (s ++ "")%string = s.
Proof. induction s as [|c s IH]; simpl; [reflexivity|now rewrite IH]. Qed.

Lemma append_associative (a b c : string) :
  ((a ++ b) ++ c)%string = (a ++ (b ++ c))%string.
Proof. induction a as [|x a IH]; simpl; [reflexivity|now rewrite IH]. Qed.

Lemma joinText_app texts texts' :
  joinText (texts ++ texts') = (joinText texts ++ joinText texts')%string.
Proof.
  induction texts as [|text rest IH]; simpl; [reflexivity|].
  now rewrite IH, append_associative.
Qed.

Lemma joinText_one text : joinText [text] = text.
Proof. apply append_empty_r. Qed.

Lemma partText_tokens tokens :
  joinText (map partText (map tokenPart tokens)) = joinText (map fst tokens).
Proof.
  induction tokens as [|[text [|]] rest IH]; simpl; [reflexivity| |];
    rewrite IH; [|reflexivity].
  now rewrite append_empty_r.
Qed.

Lemma partText_parseLink parsePillLink node children :
  partText (parseLink parsePillLink node children)
  = joinText (map partText children).
Proof.
  unfold parseLink.
  destruct (truthyUserId _); [|reflexivity].
  destruct (getAttributeValue node "href"); reflexivity.
Qed.

Section InlineText.

Variable linkify : string -> list (string * bool).
Variable parsePillLink : string -> option PillData.

Hypothesis linkify_covers :
  forall text, joinText (map fst (linkify text)) = text.

Lemma parseInlineNodes_text_by_turns nodes :
  Forall (fun node =>
            everyNode emptyLineBreak node = true ->
            joinText (map partText
                        (_parseInlineNodes_turn linkify parsePillLink node []))
            = flatText node)
         nodes ->
  forallb (everyNode emptyLineBreak) nodes = true ->
  joinText (map partText (parseInlineNodes linkify parsePillLink nodes))
  = joinText (map flatText nodes).
Proof.
  induction 1 as [|node rest here _ IH]; intros E; [reflexivity|].
  cbn [forallb] in E. apply andb_true_iff in E as [E1 E2].
  rewrite parseInlineNodes_cons, map_app, joinText_app, (here E1), (IH E2).
  reflexivity.
Qed.

Lemma _parseInlineNodes_turn_text node :
  everyNode emptyLineBreak node = true ->
  joinText (map partText (_parseInlineNodes_turn linkify parsePillLink node []))
  = flatText node.
Proof.
  induction node as [kind children IH] using Node_forest_ind.
  cbn [everyNode]. intros E. apply andb_true_iff in E as [B E].
  pose proof (parseInlineNodes_text_by_turns children IH E) as C.
  rewrite _parseInlineNodes_turn_eq.
  destruct kind as [text|tag attributes|].
  - rewrite _parseTextParts_text by reflexivity. cbn [app].
    rewrite linkifyCallback_map. cbn [app].
    rewrite partText_tokens. apply linkify_covers.
  - rewrite _parseTextParts_other by reflexivity.
    cbn [flatText].
    cbv [parseInlineNode parseInlineNodeF parseInlineElementF isElementNode
         getNodeElementName getChildNodes nodeKind childNodes].
    fold (parseInlineNodes linkify parsePillLink).
    destruct (String.eqb tag "A").
    { cbn [app map]. now rewrite joinText_one, partText_parseLink. }
    destruct (String.eqb tag "BR") eqn:R.
    { unfold emptyLineBreak, elementNameIs in B.
      cbn [getNodeElementName getChildNodes nodeKind childNodes] in B.
      rewrite R in B. destruct children; [reflexivity|discriminate]. }
    destruct (includes basicInline tag); cbn [negb].
    + cbn [app map]. rewrite joinText_one. exact C.
    + exact C.
  - rewrite _parseTextParts_other by reflexivity. exact C.
Qed.

Lemma parseInlineNodes_text nodes :
  forallb (everyNode emptyLineBreak) nodes = true ->
  joinText (map partText (parseInlineNodes linkify parsePillLink nodes))
  = joinText (map flatText nodes).
Proof.
  apply parseInlineNodes_text_by_turns, Forall_forall. intros node _.
  apply _parseInlineNodes_turn_text.
Qed.

End InlineText.

(** X18. Inline context loses no text: when the calls of the linkifier
    cover the text they are made on, and no [BR] element has child nodes,
    the text of the parts returned, read in order, is the text of the text
    nodes of the input in document order, whatever elements are unwrapped
    on the way. *)
Theorem inline_context_keeps_the_text :
  forall linkify parsePillLink nodes,
    (forall text, joinText (map fst (linkify text)) = text) ->
    forallb (everyNode emptyLineBreak) nodes = true ->
    joinText (map partText (parseInlineNodes linkify parsePillLink nodes))
    = joinText (map flatText nodes).
Proof.
  intros linkify parsePillLink nodes covers E.
  now apply parseInlineNodes_text.
Qed.

Lemma inline_context_keeps_the_text_witness :
  joinText
    (map partText
       (parseInlineNodes Sample.linkify Sample.parsePillLink
          [ElementNode "UL" [] [TextNode "a"; ElementNode "LI" [] [TextNode "b"]];
           ElementNode "A" [("href", "https://matrix.to/#/@c:hs")] [TextNode "c"];
           ElementNode "BR" [] []; mkNode OtherKind [TextNode "d"]]))
  = "abcd".
Proof.
  exact (inline_context_keeps_the_text Sample.linkify Sample.parsePillLink
           [ElementNode "UL" [] [TextNode "a"; ElementNode "LI" [] [TextNode "b"]];
            ElementNode "A" [("href", "https://matrix.to/#/@c:hs")] [TextNode "c"];
            ElementNode "BR" [] []; mkNode OtherKind [TextNode "d"]]
           append_empty_r eq_refl).
Defined.
